(** * Midi Fighter Pro: the per-tick translation engine of midifighterpro.c

    A shallow embedding of [remap] and [Midifighter_Task] and the
    properties of the engine stated in the specification.

    Machine integers are kept in [Z] with the wrap-around of the C types
    written out ([u8], [u16], [s16]).  Global variables of the firmware
    are the fields of [state]; the calls into the drivers (MIDI output,
    LEDs, SysEx reader) and the stores into [g_midi_note_state] are recorded
    in order in a list of [action]s. *)

From Stdlib Require Import ZArith List Bool Lia.
Import ListNotations.
Local Open Scope Z_scope.

(** ** Machine integers *)

Definition u8 (x : Z) : Z := x mod 256.
Definition u16 (x : Z) : Z := x mod 65536.

(** Conversion of a value to [int16_t] (two's complement). *)
Definition s16 (x : Z) : Z :=
  let y := x mod 65536 in if y <? 32768 then y else y - 65536.

(** ** Helper functions (midifighterpro.c, lines 56-79) *)

(** [uint8_t remap(uint8_t value, uint8_t from, uint8_t to, uint8_t lo, uint8_t hi)].
    [numer] and [denom] are [uint16_t]; the result is cast to [uint8_t].
    A zero [denom] (from = to = value) is a division by zero in C; [Z]
    division gives 0 there. *)
Definition remap (value from to lo hi : Z) : Z :=
  if value <? from then lo
  else if value >? to then hi
  else
    let numer := u16 ((value - from) * (hi - lo)) in
    let denom := u16 (to - from) in
    u8 (lo + numer / denom).

(** ** Data model *)

(** Modelled from the spec: [MIDI_EventPacket_t] is declared by the USB MIDI
    class driver; a packet has a 4-bit command and three data bytes. *)
Record MIDI_EventPacket_t : Type := mkPacket {
  Command : Z;
  Data1 : Z;
  Data2 : Z;
  Data3 : Z
}.

(** Modelled from the spec: the device modes are declared in an included
    header; the task tests for [TRAKTOR] and [ABLETON], and the third mode
    is named Default. *)
Inductive device_mode : Type := DEVICE_DEFAULT | TRAKTOR | ABLETON.

(** The Fourbanks modes the task tests for. *)
Inductive fourbanks_mode : Type :=
  FOURBANKS_OFF | FOURBANKS_INTERNAL | FOURBANKS_EXTERNAL.

Inductive combo_action_t : Type :=
| COMBO_NONE
| COMBO_A_DOWN | COMBO_A_RELEASE
| COMBO_B_DOWN | COMBO_B_RELEASE
| COMBO_C_DOWN | COMBO_C_RELEASE
| COMBO_D_DOWN | COMBO_D_RELEASE
| COMBO_E_DOWN | COMBO_E_RELEASE.

Definition device_mode_eqb (a b : device_mode) : bool :=
  match a, b with
  | DEVICE_DEFAULT, DEVICE_DEFAULT | TRAKTOR, TRAKTOR | ABLETON, ABLETON => true
  | _, _ => false
  end.

(** Configuration globals, read-only for the task. *)
Record config : Type := mkConfig {
  g_midi_channel : Z;
  g_midi_velocity : Z;
  g_device_mode : device_mode;
  g_key_fourbanks_mode : fourbanks_mode;
  g_rotate_enable : bool;
  g_combos_enable : bool;
  g_led_keypress_enable : bool;
  g_exp_led_keypress_enable : bool
}.

(** What the build and the other translation units fix: the compile-time
    slider inversion flags ([INVERT_SLIDER i] stands for INVERT_SLIDER_1..4
    at [i] = 0..3), the base note MIDI_BASE_NOTE and the key/note mapping
    functions, all defined outside midifighterpro.c.  The mapping functions read the
    Fourbanks mode and the selected bank, which are passed to them here. *)
Record platform : Type := mkPlatform {
  INVERT_SLIDER : Z -> bool;
  MIDI_BASE_NOTE : Z;
  midi_fourbanks_key_to_note : fourbanks_mode -> Z -> Z -> Z;
  midi_note_to_key : Z -> Z;
  midi_fourbanks_note_to_key : fourbanks_mode -> Z -> Z -> Z
}.

(** Modelled from the spec: NUM_ANALOG is defined in an included header;
    there are four analog channels. *)
Definition NUM_ANALOG : Z := 4.

(** Modelled from the spec: [g_midi_note_state] is declared in an included
    header; the table has 128 entries. *)
Definition MIDI_MAX_NOTES : Z := 128.

(** The globals written by the task.  [g_midi_note_state] maps the offset
    used in [g_midi_note_state[note]] to the byte stored there: the index is
    a [uint8_t], offsets 0..127 are the table, and a store at a larger
    offset lands behind it. *)
Record state : Type := mkState {
  main_watchdog_flag : bool;
  g_midi_note_state : Z -> Z;
  g_led_groundfx_counter : Z;
  g_exp_analog_prev : Z -> Z;
  second_cc_value : Z;
  g_key_bank_selected : Z
}.

(** What one run of the task reads from the drivers: the USB state, the
    packets returned by [MIDI_Device_ReceiveEventPacket] until it returns
    false, the debounced expansion and key bitsets after [exp_key_calc] and
    [key_calc], the ADC readings ([exp_adc_read i] in sampling round
    [samples]) and the result of [combo_recognize]. *)
Record input : Type := mkInput {
  USB_Configured : bool;
  rx_packets : list MIDI_EventPacket_t;
  g_exp_key_down : Z;
  g_exp_key_up : Z;
  g_exp_key_state : Z;
  exp_adc_read : Z -> Z -> Z;
  g_key_down : Z;
  g_key_up : Z;
  g_key_state : Z;
  combo_recognize : combo_action_t
}.

(** Calls into the drivers and stores into the note-state table, in the
    order the task performs them. *)
Inductive action : Type :=
| midi_stream_note (note : Z) (onoff : bool)
| midi_stream_cc (cc value : Z)
| midi_stream_raw_cc (channel cc value : Z)
| MIDI_Device_Flush
| SYSEX_READ (byte : Z)
| SYSEX_END
| note_state_store (index value : Z)
| led_set_state (leds : Z)
| exp_set_key_led (key_leds : Z)
| led_groundfx_state (on : bool)
| PORTD_toggle.

(** ** A state and output monad for the task *)

Definition M (A : Type) : Type := state -> A * state * list action.

Definition ret {A} (a : A) : M A := fun s => (a, s, []).

Definition bind {A B} (m : M A) (k : A -> M B) : M B :=
  fun s =>
    let '(a, s1, t1) := m s in
    let '(b, s2, t2) := k a s1 in
    (b, s2, t1 ++ t2).

Declare Scope task_scope.
Delimit Scope task_scope with task.
Notation "x <- m ;; k" := (bind m (fun x => k))
  (at level 61, m at next level, right associativity) : task_scope.
Notation "m ;; k" := (bind m (fun _ => k))
  (at level 61, right associativity) : task_scope.
Local Open Scope task_scope.

Definition gets {A} (f : state -> A) : M A := fun s => (f s, s, []).
Definition modify (f : state -> state) : M unit := fun s => (tt, f s, []).
Definition emit (a : action) : M unit := fun s => (tt, s, [a]).
Definition when (b : bool) (m : M unit) : M unit := if b then m else ret tt.

(** [for (i = ...; ...; ++i) body] over the listed values of [i]. *)
Fixpoint for_each (l : list Z) (body : Z -> M unit) : M unit :=
  match l with
  | [] => ret tt
  | i :: l' => body i ;; for_each l' body
  end.

Definition result {A} (m : M A) (s : state) : A := fst (fst (m s)).
Definition exec {A} (m : M A) (s : state) : state := snd (fst (m s)).
Definition trace {A} (m : M A) (s : state) : list action := snd (m s).

(** Assignments to the globals. *)
Definition set_main_watchdog_flag (b : bool) (s : state) : state :=
  mkState b (g_midi_note_state s) (g_led_groundfx_counter s)
          (g_exp_analog_prev s) (second_cc_value s) (g_key_bank_selected s).

Definition set_g_led_groundfx_counter (c : Z) (s : state) : state :=
  mkState (main_watchdog_flag s) (g_midi_note_state s) c
          (g_exp_analog_prev s) (second_cc_value s) (g_key_bank_selected s).

Definition set_second_cc_value (v : Z) (s : state) : state :=
  mkState (main_watchdog_flag s) (g_midi_note_state s)
          (g_led_groundfx_counter s) (g_exp_analog_prev s) v
          (g_key_bank_selected s).

Definition set_g_key_bank_selected (b : Z) (s : state) : state :=
  mkState (main_watchdog_flag s) (g_midi_note_state s)
          (g_led_groundfx_counter s) (g_exp_analog_prev s)
          (second_cc_value s) b.

(** Array element update. *)
Definition upd (f : Z -> Z) (i v : Z) : Z -> Z :=
  fun j => if j =? i then v else f j.

Definition set_g_exp_analog_prev (i v : Z) (s : state) : state :=
  mkState (main_watchdog_flag s) (g_midi_note_state s)
          (g_led_groundfx_counter s) (upd (g_exp_analog_prev s) i v)
          (second_cc_value s) (g_key_bank_selected s).

Definition set_g_midi_note_state (i v : Z) (s : state) : state :=
  mkState (main_watchdog_flag s) (upd (g_midi_note_state s) i v)
          (g_led_groundfx_counter s) (g_exp_analog_prev s)
          (second_cc_value s) (g_key_bank_selected s).

(** [g_midi_note_state[note] = velocity;] *)
Definition store_note_state (note velocity : Z) : M unit :=
  modify (set_g_midi_note_state note velocity) ;;
  emit (note_state_store note velocity).

(** ** The MIDI processing task (midifighterpro.c, lines 175-855) *)

Definition fourbanks_mode_eqb (a b : fourbanks_mode) : bool :=
  match a, b with
  | FOURBANKS_OFF, FOURBANKS_OFF
  | FOURBANKS_INTERNAL, FOURBANKS_INTERNAL
  | FOURBANKS_EXTERNAL, FOURBANKS_EXTERNAL => true
  | _, _ => false
  end.

(** [x & mask] is nonzero. *)
Definition bit_and (x mask : Z) : bool := negb (Z.land x mask =? 0).

(** [lo, lo+1, ..., lo+n-1]. *)
Definition range (lo : Z) (n : nat) : list Z :=
  map (fun k => lo + Z.of_nat k) (seq 0 n).

Section Task.

Variable cfg : config.
Variable pf : platform.
Variable inp : input.

(** *** INPUT MIDI from USB (lines 301-392) *)

(** Modelled from the spec: SYSEX_READ(n) and SYSEX_END() are macros
    defined outside this file; they forward data byte [n] of the packet to the SysEx reader
    and signal the end of the message. *)
Definition sysex_read (b : Z) : M unit := emit (SYSEX_READ b).
Definition sysex_end : M unit := emit SYSEX_END.

(** [g_led_groundfx_counter++].  Modelled from the spec: the counter is
    declared outside this file; it is an unsigned counter, taken as 8 bits
    wide.  The width shows only when the count passes 255, and no property
    below lets it come that far. *)
Definition groundfx_increment (s : state) : state :=
  set_g_led_groundfx_counter (u8 (g_led_groundfx_counter s + 1)) s.

(** The body of the receive loop for one packet. *)
Definition receive_packet (input_event : MIDI_EventPacket_t) : M unit :=
  if Command input_event =? 0xF then
    if Data1 input_event =? 0xF8 then modify groundfx_increment
    else if Data1 input_event =? 0xFA then modify (set_g_led_groundfx_counter 0)
    else if Data1 input_event =? 0xFC then modify (set_g_led_groundfx_counter 0)
    else ret tt
  else if Command input_event =? 0x4 then
    sysex_read (Data1 input_event) ;;
    sysex_read (Data2 input_event) ;;
    sysex_read (Data3 input_event)
  else if Command input_event =? 0x5 then
    sysex_read (Data1 input_event) ;;
    sysex_end
  else if Command input_event =? 0x6 then
    sysex_read (Data1 input_event) ;;
    sysex_read (Data2 input_event) ;;
    sysex_end
  else if Command input_event =? 0x7 then
    sysex_read (Data1 input_event) ;;
    sysex_read (Data2 input_event) ;;
    sysex_read (Data3 input_event) ;;
    sysex_end
  else
    let channel := Z.land (Data1 input_event) 0x0f in
    if channel =? g_midi_channel cfg then
      if Command input_event =? 0x9 then
        let note := Data2 input_event in
        let velocity := Data3 input_event in
        store_note_state note velocity
      else if Command input_event =? 0x8 then
        let note := Data2 input_event in
        store_note_state note 0
      else ret tt
    else ret tt.

(** [while (MIDI_Device_ReceiveEventPacket(...)) { ... }] *)
Fixpoint receive_loop (packets : list MIDI_EventPacket_t) : M unit :=
  match packets with
  | [] => ret tt
  | input_event :: rest => receive_packet input_event ;; receive_loop rest
  end.

(** *** OUTPUT events from the EXPANSION ports (lines 395-561) *)

Definition MIDI_DIGITAL_NOTE : Z := 4.

Definition expansion_digital : M unit :=
  when (negb (fourbanks_mode_eqb (g_key_fourbanks_mode cfg) FOURBANKS_EXTERNAL))
    (for_each (range 0 4) (fun i =>
       let bit := u8 (Z.shiftl 0x01 i) in
       when (bit_and (g_exp_key_down inp) bit)
            (emit (midi_stream_note (u8 (MIDI_DIGITAL_NOTE + i)) true)) ;;
       when (bit_and (g_exp_key_up inp) bit)
            (emit (midi_stream_note (u8 (MIDI_DIGITAL_NOTE + i)) false)))).

(** Sum of the four samples of channel [i] in [uint16_t], then [>>= 2]. *)
Definition adc_average (i : Z) : Z :=
  let sum :=
    fold_left (fun acc samples => u16 (acc + exp_adc_read inp samples i))
              (range 0 4) 0 in
  Z.shiftr sum 2.

(** [adc_value[n] = 1024 - adc_value[n]] for the channels built with
    INVERT_SLIDER_n+1, when [g_rotate_enable] is off. *)
Definition adc_invert (i : Z) (v : Z) : Z :=
  if negb (g_rotate_enable cfg) && INVERT_SLIDER pf i then u16 (1024 - v)
  else v.

(** The hysteresis test against the previous value [prev]. *)
Definition adc_hysteresis (v prev : Z) : Z :=
  let difference := s16 (v - prev) in
  if Z.abs difference <? 8 then prev else v.

(** [adc_value[i]] as the emission loop reads it, computed from the
    [g_exp_analog_prev] of state [s]. *)
Definition adc_value (s : state) (i : Z) : Z :=
  adc_hysteresis (adc_invert i (adc_average i)) (g_exp_analog_prev s i).

Definition NOTEON_LOW : Z := 3.
Definition NOTEON_HIGH : Z := u8 (127 - NOTEON_LOW).
Definition MIDI_ANALOG_NOTE : Z := 100.
Definition MIDI_ANALOG_CC : Z := 16.

Definition is_traktor : bool := device_mode_eqb (g_device_mode cfg) TRAKTOR.
Definition is_ableton : bool := device_mode_eqb (g_device_mode cfg) ABLETON.

(** Step 1 and 2 of the body: the default CC and, in Traktor mode, the
    second CC range (lines 511-532). *)
Definition analog_cc (i value : Z) : M unit :=
  let cc_a := u8 (MIDI_ANALOG_CC + 2 * i) in
  let cc_b := u8 (MIDI_ANALOG_CC + 2 * i + 1) in
  when ((NOTEON_LOW <=? value) && (value <=? NOTEON_HIGH))
    (emit (midi_stream_cc cc_a (remap value NOTEON_LOW NOTEON_HIGH 0 127)) ;;
     when is_traktor
       (if 64 <=? value then
          modify (set_second_cc_value (remap value 64 NOTEON_HIGH 0 105)) ;;
          v <- gets second_cc_value ;;
          emit (midi_stream_cc cc_b v)
        else
          v <- gets second_cc_value ;;
          when (0 <? v)
            (modify (set_second_cc_value 0) ;;
             v0 <- gets second_cc_value ;;
             emit (midi_stream_cc cc_b v0)))).

(** Step 3 of the body: the note events at the ends of the range
    (lines 541-556). *)
Definition analog_notes (i value prev_value : Z) : M unit :=
  let note_a := u8 (MIDI_ANALOG_NOTE + 2 * i) in
  let note_b := u8 (MIDI_ANALOG_NOTE + 2 * i + 1) in
  when is_traktor
    (if (value <=? NOTEON_LOW) && (NOTEON_LOW <? prev_value) then
       emit (midi_stream_note note_a true) ;;
       store_note_state note_a (g_midi_velocity cfg)
     else if (NOTEON_LOW <? value) && (prev_value <=? NOTEON_LOW) then
       emit (midi_stream_note note_a false) ;;
       store_note_state note_a 0
     else if (NOTEON_HIGH <=? value) && (prev_value <? NOTEON_HIGH) then
       emit (midi_stream_note note_b true) ;;
       store_note_state note_b (g_midi_velocity cfg)
     else if (value <? NOTEON_HIGH) && (NOTEON_HIGH <=? prev_value) then
       emit (midi_stream_note note_b false) ;;
       store_note_state note_b 0
     else ret tt).

(** The 7-bit value of a 10-bit reading: [(uint8_t)(x >> 3)]. *)
Definition cc_value (x : Z) : Z := u8 (Z.shiftr x 3).

(** The body of the emission loop for channel [i], [adc] being the array
    [adc_value] after the hysteresis loop (lines 479-561). *)
Definition analog_channel (adc : Z -> Z) (i : Z) : M unit :=
  prev <- gets (fun s => g_exp_analog_prev s i) ;;
  let value := cc_value (adc i) in
  let prev_value := cc_value prev in
  when (negb (value =? prev_value))
    (analog_cc i value ;;
     analog_notes i value prev_value ;;
     modify (set_g_exp_analog_prev i (adc i))).

Definition expansion_analog : M unit :=
  adc <- gets adc_value ;;
  for_each (range 0 (Z.to_nat NUM_ANALOG)) (analog_channel adc).

(** *** OUTPUT key presses (lines 563-679) *)

(** The locals set up from the Fourbanks mode. *)
Record bank_vars : Type := mkBankVars {
  bank_keydown : Z;
  bank_keyup : Z;
  bank_keystate : Z;
  keydown : Z;
  keyup : Z;
  keyoffset : Z;
  keycount : Z
}.

Definition fourbanks_vars : bank_vars :=
  match g_key_fourbanks_mode cfg with
  | FOURBANKS_OFF =>
      mkBankVars 0 0 0 (g_key_down inp) (g_key_up inp) 0 16
  | FOURBANKS_INTERNAL =>
      mkBankVars (g_key_down inp) (g_key_up inp) (g_key_state inp)
                 (Z.shiftr (g_key_down inp) 4) (Z.shiftr (g_key_up inp) 4)
                 4 12
  | FOURBANKS_EXTERNAL =>
      mkBankVars (g_exp_key_down inp) (g_exp_key_up inp) (g_exp_key_state inp)
                 (g_key_down inp) (g_key_up inp) 0 16
  end.

(** The setup also resets the selected bank when Fourbanks is off. *)
Definition fourbanks_setup : M bank_vars :=
  match g_key_fourbanks_mode cfg with
  | FOURBANKS_OFF => modify (set_g_key_bank_selected 0) ;; ret fourbanks_vars
  | FOURBANKS_INTERNAL => ret fourbanks_vars
  | FOURBANKS_EXTERNAL => ret fourbanks_vars
  end.

(** [while (!(bank_keydown & bank_bit) && new_bank < 4) { bank_bit <<= 1;
    ++new_bank; }], returning [new_bank].  [fuel] bounds the number of
    iterations; four are enough from [new_bank = 0]
    (see [bank_scan_lowest]). *)
Fixpoint bank_scan (fuel : nat) (bank_keydown bank_bit new_bank : Z) : Z :=
  match fuel with
  | O => new_bank
  | S fuel' =>
      if negb (bit_and bank_keydown bank_bit) && (new_bank <? 4) then
        bank_scan fuel' bank_keydown (u8 (Z.shiftl bank_bit 1)) (u8 (new_bank + 1))
      else new_bank
  end.

(** Update the active bank (lines 626-646). *)
Definition bank_select (bv : bank_vars) : M unit :=
  when (bit_and (bank_keydown bv) 0x000f)
    (let new_bank := bank_scan 4 (bank_keydown bv) 1 0 in
     selected <- gets g_key_bank_selected ;;
     when (negb (selected =? new_bank) &&
           bit_and (bank_keystate bv) (Z.shiftl 1 selected))
          (emit (midi_stream_note selected false)) ;;
     emit (midi_stream_note new_bank true) ;;
     modify (set_g_key_bank_selected new_bank)).

(** NoteOff for the released bank key (lines 648-654). *)
Definition bank_release (bv : bank_vars) : M unit :=
  when (bit_and (bank_keyup bv) 0x000f)
    (selected <- gets g_key_bank_selected ;;
     let bank_bit := u8 (Z.shiftl 1 selected) in
     when (bit_and (bank_keyup bv) bank_bit)
          (emit (midi_stream_note selected false))).

(** The key loop (lines 658-679). *)
Definition key_events (bv : bank_vars) : M unit :=
  for_each (range 0 (Z.to_nat (keycount bv))) (fun i =>
    let bit := u16 (Z.shiftl 0x0001 i) in
    selected <- gets g_key_bank_selected ;;
    let note :=
      u8 (midi_fourbanks_key_to_note pf (g_key_fourbanks_mode cfg) selected
            (u8 (i + keyoffset bv))) in
    when (bit_and (keydown bv) bit)
      (when is_ableton
         (emit (midi_stream_raw_cc (g_midi_channel cfg + 1) note 127)) ;;
       emit (midi_stream_note note true)) ;;
    when (bit_and (keyup bv) bit)
      (emit (midi_stream_note note false) ;;
       when is_ableton
         (emit (midi_stream_raw_cc (g_midi_channel cfg + 1) note 0)))).

(** *** Combo key events (lines 681-720) *)

Definition combo_events : M unit :=
  when (g_combos_enable cfg)
    (match combo_recognize inp with
     | COMBO_A_DOWN => emit (midi_stream_note 8 true)
     | COMBO_A_RELEASE => emit (midi_stream_note 8 false)
     | COMBO_B_DOWN => emit (midi_stream_note 9 true)
     | COMBO_B_RELEASE => emit (midi_stream_note 9 false)
     | COMBO_C_DOWN => emit (midi_stream_note 10 true)
     | COMBO_C_RELEASE => emit (midi_stream_note 10 false)
     | COMBO_D_DOWN => emit (midi_stream_note 11 true)
     | COMBO_D_RELEASE => emit (midi_stream_note 11 false)
     | COMBO_E_DOWN => emit (midi_stream_note 12 true)
     | COMBO_E_RELEASE => emit (midi_stream_note 12 false)
     | COMBO_NONE => ret tt
     end).

(** *** Update the LEDs (lines 726-847) *)

(** [for (i = basenote; i < basenote + n; ++i) if (g_midi_note_state[i] > 0)
    leds |= 1 << key_of(i);] on a [uint16_t leds].  The counter is a
    [uint8_t]: the loop is the one below as long as [basenote + n <= 256],
    which holds for the base note 36 and banks 0..3. *)
Definition led_scan (note_state : Z -> Z) (key_of : Z -> Z)
           (basenote : Z) (n : nat) (leds : Z) : Z :=
  fold_left (fun leds i =>
               if 0 <? note_state i
               then u16 (Z.lor leds (Z.shiftl 1 (key_of i))) else leds)
            (range basenote n) leds.

(** The external key LEDs from the four digital notes. *)
Definition digital_key_leds (note_state : Z -> Z) : Z :=
  fold_left (fun key_leds i =>
               if 0 <? note_state (MIDI_DIGITAL_NOTE + i)
               then Z.lor key_leds (u8 (Z.shiftl 0x01 i)) else key_leds)
            (range 0 4) 0.

Definition update_leds : M unit :=
  note_state <- gets g_midi_note_state ;;
  selected <- gets g_key_bank_selected ;;
  match g_key_fourbanks_mode cfg with
  | FOURBANKS_OFF =>
      let basenote := u8 (MIDI_BASE_NOTE pf) in
      let leds := led_scan note_state (midi_note_to_key pf) basenote 16 0 in
      let leds :=
        if g_led_keypress_enable cfg then u16 (Z.lor leds (g_key_state inp))
        else leds in
      let key_leds := digital_key_leds note_state in
      let key_leds :=
        if g_exp_led_keypress_enable cfg
        then u8 (Z.lor key_leds (g_exp_key_state inp)) else key_leds in
      emit (exp_set_key_led key_leds) ;;
      emit (led_set_state leds)
  | FOURBANKS_INTERNAL =>
      let leds := u16 (Z.shiftl 1 selected) in
      let basenote := u8 (MIDI_BASE_NOTE pf + selected * 12) in
      let leds :=
        led_scan note_state
          (midi_fourbanks_note_to_key pf FOURBANKS_INTERNAL selected)
          basenote 12 leds in
      let leds :=
        if g_led_keypress_enable cfg
        then u16 (Z.lor leds (Z.land (g_key_state inp) 0xfff0)) else leds in
      let key_leds := digital_key_leds note_state in
      emit (exp_set_key_led key_leds) ;;
      emit (led_set_state leds)
  | FOURBANKS_EXTERNAL =>
      let bank_led := u8 (Z.shiftl 1 selected) in
      emit (exp_set_key_led bank_led) ;;
      let basenote := u8 (MIDI_BASE_NOTE pf + selected * 16) in
      let leds :=
        led_scan note_state
          (midi_fourbanks_note_to_key pf FOURBANKS_EXTERNAL selected)
          basenote 16 0 in
      let leds :=
        if g_led_keypress_enable cfg then u16 (Z.lor leds (g_key_state inp))
        else leds in
      emit (led_set_state leds)
  end.

(** The Ground Effects LED (lines 839-847). *)
Definition update_groundfx : M unit :=
  counter <- gets g_led_groundfx_counter ;;
  if counter =? 0 then emit (led_groundfx_state true)
  else if counter <? 8 then emit (led_groundfx_state false)
  else if counter <? 24 then emit (led_groundfx_state true)
  else modify (set_g_led_groundfx_counter 0).

(** *** The task *)

Definition Midifighter_Task : M unit :=
  if negb (USB_Configured inp) then
    modify (set_main_watchdog_flag true)
  else
    receive_loop (rx_packets inp) ;;
    expansion_digital ;;
    expansion_analog ;;
    bv <- fourbanks_setup ;;
    bank_select bv ;;
    bank_release bv ;;
    key_events bv ;;
    combo_events ;;
    emit MIDI_Device_Flush ;;
    update_leds ;;
    update_groundfx ;;
    modify (set_main_watchdog_flag true) ;;
    emit PORTD_toggle.

End Task.

(** ** Parts of the task *)

(** What follows the analog channels in the task. *)
Definition after_analog cfg pf inp : M unit :=
  bv <- fourbanks_setup cfg inp ;;
  bank_select bv ;;
  bank_release bv ;;
  key_events cfg pf bv ;;
  combo_events cfg inp ;;
  emit MIDI_Device_Flush ;;
  update_leds cfg pf inp ;;
  update_groundfx ;;
  modify (set_main_watchdog_flag true) ;;
  emit PORTD_toggle.

(** What follows the bank update in the task. *)
Definition after_bank_select cfg pf inp (bv : bank_vars) : M unit :=
  bank_release bv ;;
  key_events cfg pf bv ;;
  combo_events cfg inp ;;
  emit MIDI_Device_Flush ;;
  update_leds cfg pf inp ;;
  update_groundfx ;;
  modify (set_main_watchdog_flag true) ;;
  emit PORTD_toggle.

(** The value channel [i] keeps as its previous reading after its
    iteration, from the reading [v] and the previous reading [p]. *)
Definition next_prev (v p : Z) : Z :=
  if cc_value v =? cc_value p then p else v.

(** The bank selected at the end of a configured run, from the bank
    selected before it. *)
Definition next_bank (cfg : config) (inp : input) (selected : Z) : Z :=
  match g_key_fourbanks_mode cfg with
  | FOURBANKS_OFF => 0
  | FOURBANKS_INTERNAL =>
      if bit_and (g_key_down inp) 0x000f
      then bank_scan 4 (g_key_down inp) 1 0 else selected
  | FOURBANKS_EXTERNAL =>
      if bit_and (g_exp_key_down inp) 0x000f
      then bank_scan 4 (g_exp_key_down inp) 1 0 else selected
  end.

(** ** Runs of the task and views of its output *)

(** The task run once per element of [inputs], from state [s]: the final
    state and the output of each run. *)
Fixpoint ticks (cfg : config) (pf : platform) (inputs : list input)
         (s : state) : state * list (list action) :=
  match inputs with
  | [] => (s, [])
  | inp :: rest =>
      let s1 := exec (Midifighter_Task cfg pf inp) s in
      let '(s2, outs) := ticks cfg pf rest s1 in
      (s2, trace (Midifighter_Task cfg pf inp) s :: outs)
  end.

(** The note events and note-state stores of an output. *)
Definition note_actions (t : list action) : list action :=
  filter (fun a => match a with
                   | midi_stream_note _ _ | note_state_store _ _ => true
                   | _ => false
                   end) t.

(** The CC events of an output. *)
Definition cc_actions (t : list action) : list action :=
  filter (fun a => match a with midi_stream_cc _ _ => true | _ => false end) t.

(** Every action in the output of [m] satisfies [P], from any state. *)
Definition emits {A} (P : action -> Prop) (m : M A) : Prop :=
  forall s, Forall P (trace m s).

(** [m] does not change the view [f] of the state. *)
Definition preserves {A B} (f : state -> B) (m : M A) : Prop :=
  forall s, f (exec m s) = f s.

(** A store into the note state stays inside the table. *)
Definition store_in_table (a : action) : Prop :=
  match a with
  | note_state_store index _ => 0 <= index < MIDI_MAX_NOTES
  | _ => True
  end.

(** The action is not a CC event on controller [c]. *)
Definition not_controller (c : Z) (a : action) : Prop :=
  match a with midi_stream_cc c' _ => c' <> c | _ => True end.

(** *** Concrete settings used in the examples *)

(** The globals at power on. *)
Definition power_on : state :=
  mkState false (fun _ => 0) 0 (fun _ => 0) 0 0.

(** Receive channel 2, velocity 127, no rotation, combos off, keypress
    lighting on. *)
Definition demo_config (dm : device_mode) (fb : fourbanks_mode) : config :=
  mkConfig 2 127 dm fb false false true true.

(** Base note 36 and bank-major key maps; [inv] builds every slider
    inverted. *)
Definition demo_platform (inv : bool) : platform :=
  mkPlatform (fun _ => inv) 36
             (fun _ bank key => 36 + 16 * bank + key)
             (fun note => note - 36)
             (fun _ bank note => note - 36 - 16 * bank).

(** A configured tick with nothing pressed, nothing received and all ADC
    channels reading 0. *)
Definition idle_input : input :=
  mkInput true [] 0 0 0 (fun _ _ => 0) 0 0 0 COMBO_NONE.

(** As [idle_input], with the given packets received. *)
Definition packets_input (l : list MIDI_EventPacket_t) : input :=
  mkInput true l 0 0 0 (fun _ _ => 0) 0 0 0 COMBO_NONE.

(** As [idle_input], with analog channel 0 reading [x] in all four
    rounds. *)
Definition slider0_input (x : Z) : input :=
  mkInput true [] 0 0 0 (fun _ i => if i =? 0 then x else 0) 0 0 0 COMBO_NONE.

(** As [idle_input], with the given key bitsets. *)
Definition keys_input (down up held : Z) : input :=
  mkInput true [] 0 0 0 (fun _ _ => 0) down up held COMBO_NONE.

(** The USB device is not configured; a key is down and a Note On is
    pending. *)
Definition unconfigured_input : input :=
  mkInput false [mkPacket 0x9 0x92 60 100] 1 0 1 (fun _ _ => 512)
          0x0010 0 0x0010 COMBO_A_DOWN.

(** As [idle_input], with analog channels 0 and 1 reading [x0] and [x1]. *)
Definition sliders_input (x0 x1 : Z) : input :=
  mkInput true [] 0 0 0
          (fun _ i => if i =? 0 then x0 else if i =? 1 then x1 else 0)
          0 0 0 COMBO_NONE.

(** Receive channel 2 and velocity 0 in Traktor mode. *)
Definition zero_velocity_config : config :=
  mkConfig 2 0 TRAKTOR FOURBANKS_OFF false false true true.

(** ** The main loop and further views of the output *)

(** A SysEx message as a host sends it in USB-MIDI packets, following the
    command table in the comment of the receive loop (lines 314-317): three
    bytes in each 0x4 packet, and the last one, two or three bytes in a 0x5,
    0x6 or 0x7 packet. *)
Fixpoint sysex_packets (payload : list Z) : list MIDI_EventPacket_t :=
  match payload with
  | [] => []
  | [a] => [mkPacket 0x5 a 0 0]
  | [a; b] => [mkPacket 0x6 a b 0]
  | [a; b; c] => [mkPacket 0x7 a b c]
  | a :: b :: c :: rest => mkPacket 0x4 a b c :: sysex_packets rest
  end.

(** The calls to [led_groundfx_state] in an output. *)
Definition groundfx_actions (t : list action) : list action :=
  filter (fun a => match a with led_groundfx_state _ => true | _ => false end)
         t.

(** The MIDI events of an output: notes, CCs and raw CCs. *)
Definition midi_events (t : list action) : list action :=
  filter (fun a => match a with
                   | midi_stream_note _ _ | midi_stream_cc _ _
                   | midi_stream_raw_cc _ _ _ => true
                   | _ => false
                   end) t.

(** What one pass of the endless loop of [main] does (lines 1029-1046):
    the calls of the task, then the two USB tasks, then the watchdog
    reset. *)
Inductive main_action : Type :=
| task_action (a : action)
| MIDI_Device_USBTask
| USB_USBTask
| wdt_reset.

(** The body of [for(;;) { ... }] in [main]. *)
Definition main_loop_body (cfg : config) (pf : platform) (inp : input)
           (s : state) : state * list main_action :=
  let s1 := exec (Midifighter_Task cfg pf inp) s in
  let t := map task_action (trace (Midifighter_Task cfg pf inp) s)
           ++ [MIDI_Device_USBTask; USB_USBTask] in
  if main_watchdog_flag s1
  then (set_main_watchdog_flag false s1, t ++ [wdt_reset])
  else (s1, t).

(** The number of watchdog resets in an output of the main loop. *)
Definition wdt_resets (t : list main_action) : nat :=
  length (filter (fun a => match a with wdt_reset => true | _ => false end) t).

(** The action is a CC event on one of the analog controllers 16..23 with a
    7-bit value, or no CC event. *)
Definition valid_cc (a : action) : Prop :=
  match a with
  | midi_stream_cc cc value => 16 <= cc <= 23 /\ 0 <= value <= 127
  | _ => True
  end.

(** The action is not a raw CC event. *)
Definition not_raw_cc (a : action) : Prop :=
  match a with midi_stream_raw_cc _ _ _ => False | _ => True end.

(** The action is not a call to [led_groundfx_state]. *)
Definition not_groundfx (a : action) : Prop :=
  match a with led_groundfx_state _ => False | _ => True end.

(** The action is not a MIDI event. *)
Definition not_midi_event (a : action) : Prop :=
  match a with
  | midi_stream_note _ _ | midi_stream_cc _ _ | midi_stream_raw_cc _ _ _ =>
      False
  | _ => True
  end.


(** What a configured run does between the receive loop and the Ground
    Effects update. *)
Definition before_groundfx cfg pf inp : M unit :=
  expansion_digital cfg inp ;;
  expansion_analog cfg pf inp ;;
  bv <- fourbanks_setup cfg inp ;;
  bank_select bv ;;
  bank_release bv ;;
  key_events cfg pf bv ;;
  combo_events cfg inp ;;
  emit MIDI_Device_Flush ;;
  update_leds cfg pf inp.


(** The events of key [i] in the key loop (lines 659-679), with [selected]
    the selected bank: on a down edge the raw CC 127 of Ableton mode, then
    the Note-On; on an up edge the Note-Off, then the raw CC 0 of Ableton
    mode. *)
Definition key_actions cfg pf (bv : bank_vars) (selected i : Z)
  : list action :=
  let note :=
    u8 (midi_fourbanks_key_to_note pf (g_key_fourbanks_mode cfg) selected
          (u8 (i + keyoffset bv))) in
  (if Z.testbit (keydown bv) i
   then (if is_ableton cfg
         then [midi_stream_raw_cc (g_midi_channel cfg + 1) note 127] else [])
        ++ [midi_stream_note note true]
   else [])
  ++ (if Z.testbit (keyup bv) i
      then [midi_stream_note note false]
           ++ (if is_ableton cfg
               then [midi_stream_raw_cc (g_midi_channel cfg + 1) note 0]
               else [])
      else []).


(** The calls to the LED drivers [led_set_state] and [exp_set_key_led] in
    an output. *)
Definition led_actions (t : list action) : list action :=
  filter (fun a => match a with
                   | led_set_state _ | exp_set_key_led _ => true
                   | _ => false
                   end) t.

(** The action is no call to [led_set_state] or [exp_set_key_led]. *)
Definition not_led (a : action) : Prop :=
  match a with led_set_state _ | exp_set_key_led _ => False | _ => True end.

(** What a configured run does between the receive loop and the LED
    update. *)
Definition before_leds cfg pf inp : M unit :=
  expansion_digital cfg inp ;;
  expansion_analog cfg pf inp ;;
  bv <- fourbanks_setup cfg inp ;;
  bank_select bv ;;
  bank_release bv ;;
  key_events cfg pf bv ;;
  combo_events cfg inp ;;
  emit MIDI_Device_Flush.

(** Some note of the slice [basenote .. basenote + n - 1] has a nonzero
    velocity and maps to key [k]. *)
Definition note_lights_key (note_state : Z -> Z) (key_of : Z -> Z)
           (basenote : Z) (n : nat) (k : Z) : bool :=
  existsb (fun note => (0 <? note_state note) && (key_of note =? k))
          (range basenote n).


(** The events of expansion pin [i] in the digital loop (lines 408-418):
    Note-On for note [4 + i] on a down edge, then Note-Off on an up edge. *)
Definition pin_actions (inp : input) (i : Z) : list action :=
  (if Z.testbit (g_exp_key_down inp) i
   then [midi_stream_note (MIDI_DIGITAL_NOTE + i) true] else [])
  ++ (if Z.testbit (g_exp_key_up inp) i
      then [midi_stream_note (MIDI_DIGITAL_NOTE + i) false] else []).

(** The action is no CC event, or a CC event on the first controller
    (16, 18, 20 or 22) of an analog channel. *)
Definition first_cc_only (a : action) : Prop :=
  match a with
  | midi_stream_cc cc _ => exists i, 0 <= i < 4 /\ cc = 16 + 2 * i
  | _ => True
  end.

(** The action is a CC event. *)
Definition is_cc (a : action) : Prop :=
  match a with midi_stream_cc _ _ => True | _ => False end.


(** ** One analog channel moving alone *)




(** ** Properties of [remap] *)

Section Remap.

Variables from to lo hi : Z.
Hypothesis from_to : 0 <= from < to /\ to <= 255.
Hypothesis lo_hi : 0 <= lo <= hi /\ hi <= 255.

(** Inside the domain no intermediate value wraps. *)
Lemma remap_inside (value : Z) :
  from <= value <= to ->
  remap value from to lo hi = lo + (value - from) * (hi - lo) / (to - from).
Proof.
  intros Hv. unfold remap.
  destruct (Z.ltb_spec value from) as [Hlt | _]; [lia |].
  destruct (Z.gtb_spec value to) as [Hgt | _]; [lia |].
  assert (Hnum : 0 <= (value - from) * (hi - lo) <= 255 * 255) by nia.
  assert (Hq : 0 <= (value - from) * (hi - lo) / (to - from) <= hi - lo).
  { split.
    - apply Z.div_pos; lia.
    - apply Z.div_le_upper_bound; nia. }
  unfold u16, u8.
  rewrite (Z.mod_small ((value - from) * (hi - lo))) by lia.
  rewrite (Z.mod_small (to - from)) by lia.
  apply Z.mod_small. lia.
Qed.

Lemma remap_below (value : Z) : value < from -> remap value from to lo hi = lo.
Proof.
  intros Hv. unfold remap.
  destruct (Z.ltb_spec value from); [reflexivity | lia].
Qed.

Lemma remap_above (value : Z) : to < value -> remap value from to lo hi = hi.
Proof.
  intros Hv. unfold remap.
  destruct (Z.ltb_spec value from); [lia |].
  destruct (Z.gtb_spec value to); [reflexivity | lia].
Qed.

Lemma remap_at_from : remap from from to lo hi = lo.
Proof.
  rewrite remap_inside by lia.
  replace (from - from) with 0 by lia.
  rewrite Z.mul_0_l, Z.div_0_l by lia. lia.
Qed.

Lemma remap_at_to : remap to from to lo hi = hi.
Proof.
  rewrite remap_inside by lia.
  rewrite Z.mul_comm, Z.div_mul by lia. lia.
Qed.

Lemma remap_monotone (v1 v2 : Z) :
  from <= v1 -> v1 <= v2 -> v2 <= to ->
  remap v1 from to lo hi <= remap v2 from to lo hi.
Proof.
  intros H1 H12 H2.
  rewrite !remap_inside by lia.
  apply Z.add_le_mono_l.
  apply Z.div_le_mono; [lia | nia].
Qed.

End Remap.

(** C6.  For [remap value from to lo hi] with [from < to] and [lo <= hi]
    (all of them [uint8_t] values, as in the two calls of the task): every
    [value < from] gives [lo], every [value > to] gives [hi], [from] gives
    [lo], [to] gives [hi], and the result is monotonically non-decreasing in
    [value] over [[from, to]]. *)
Theorem remap_clamps_and_is_monotone (from to lo hi : Z) :
  0 <= from < to /\ to <= 255 ->
  0 <= lo <= hi /\ hi <= 255 ->
  (forall value, value < from -> remap value from to lo hi = lo) /\
  (forall value, to < value -> remap value from to lo hi = hi) /\
  remap from from to lo hi = lo /\
  remap to from to lo hi = hi /\
  (forall v1 v2, from <= v1 -> v1 <= v2 -> v2 <= to ->
                 remap v1 from to lo hi <= remap v2 from to lo hi).
Proof.
  intros Hft Hlh. repeat split.
  - intros value Hv. now apply remap_below.
  - intros value Hv. now apply remap_above.
  - now apply remap_at_from.
  - now apply remap_at_to.
  - intros v1 v2 H1 H12 H2. now apply remap_monotone.
Qed.

(** The two instantiations of the task: [remap value 3 124 0 127] and
    [remap value 64 124 0 105]. *)
Lemma remap_clamps_and_is_monotone_witness :
  ((forall value, value < 3 -> remap value 3 124 0 127 = 0) /\
   (forall value, 124 < value -> remap value 3 124 0 127 = 127) /\
   remap 3 3 124 0 127 = 0 /\
   remap 124 3 124 0 127 = 127 /\
   (forall v1 v2, 3 <= v1 -> v1 <= v2 -> v2 <= 124 ->
                  remap v1 3 124 0 127 <= remap v2 3 124 0 127)) /\
  remap 64 64 124 0 105 = 0 /\ remap 124 64 124 0 105 = 105.
Proof.
  split.
  - apply (remap_clamps_and_is_monotone 3 124 0 127); lia.
  - split; reflexivity.
Defined.

(** ** Running the monad *)

Lemma exec_bind {A B} (m : M A) (k : A -> M B) (s : state) :
  exec (bind m k) s = exec (k (result m s)) (exec m s).
Proof.
  unfold exec, result, bind.
  destruct (m s) as [[a s1] t1]; simpl.
  destruct (k a s1) as [[b s2] t2]; reflexivity.
Qed.

Lemma trace_bind {A B} (m : M A) (k : A -> M B) (s : state) :
  trace (bind m k) s = trace m s ++ trace (k (result m s)) (exec m s).
Proof.
  unfold trace, exec, result, bind.
  destruct (m s) as [[a s1] t1]; simpl.
  destruct (k a s1) as [[b s2] t2]; reflexivity.
Qed.

Lemma exec_for_each_app (l1 l2 : list Z) (body : Z -> M unit) (s : state) :
  exec (for_each (l1 ++ l2) body) s
  = exec (for_each l2 body) (exec (for_each l1 body) s).
Proof.
  revert s; induction l1 as [| i l1 IH]; intros s; simpl.
  - reflexivity.
  - rewrite !exec_bind. apply IH.
Qed.

Lemma trace_for_each_app (l1 l2 : list Z) (body : Z -> M unit) (s : state) :
  trace (for_each (l1 ++ l2) body) s
  = trace (for_each l1 body) s
    ++ trace (for_each l2 body) (exec (for_each l1 body) s).
Proof.
  revert s; induction l1 as [| i l1 IH]; intros s; simpl.
  - reflexivity.
  - rewrite !trace_bind, !exec_bind, IH. now rewrite app_assoc.
Qed.

(** Unfold the primitive operations in the goal. *)
Ltac run_task :=
  unfold exec, trace, result, store_note_state, when, bind, gets, modify,
    emit, ret; simpl.

(** ** The receive loop *)

Lemma exec_receive_loop_app cfg (l1 l2 : list MIDI_EventPacket_t) (s : state) :
  exec (receive_loop cfg (l1 ++ l2)) s
  = exec (receive_loop cfg l2) (exec (receive_loop cfg l1) s).
Proof.
  revert s; induction l1 as [| ev l1 IH]; intros s; simpl.
  - reflexivity.
  - rewrite !exec_bind. apply IH.
Qed.

Lemma trace_receive_loop_app cfg (l1 l2 : list MIDI_EventPacket_t) (s : state) :
  trace (receive_loop cfg (l1 ++ l2)) s
  = trace (receive_loop cfg l1) s
    ++ trace (receive_loop cfg l2) (exec (receive_loop cfg l1) s).
Proof.
  revert s; induction l1 as [| ev l1 IH]; intros s; simpl.
  - reflexivity.
  - rewrite !trace_bind, !exec_bind, IH. now rewrite app_assoc.
Qed.

Lemma exec_receive_loop_one cfg (ev : MIDI_EventPacket_t) (s : state) :
  exec (receive_loop cfg [ev]) s = exec (receive_packet cfg ev) s.
Proof. simpl. now rewrite exec_bind. Qed.

(** A Note On or Note Off packet on the receive channel stores into the
    entry of its note; off the channel it does nothing. *)
Lemma receive_note_packet cfg (ev : MIDI_EventPacket_t) (s : state) :
  Command ev = 0x9 \/ Command ev = 0x8 ->
  receive_packet cfg ev s =
    if Z.land (Data1 ev) 0x0f =? g_midi_channel cfg then
      let v := if Command ev =? 0x9 then Data3 ev else 0 in
      (tt, set_g_midi_note_state (Data2 ev) v s, [note_state_store (Data2 ev) v])
    else (tt, s, []).
Proof.
  intros [Hc | Hc]; unfold receive_packet; rewrite Hc; simpl;
    destruct (Z.land (Data1 ev) 15 =? g_midi_channel cfg); reflexivity.
Qed.

(** C1.  For every Note On (0x9) or Note Off (0x8) packet [ev] processed by
    the receive loop, after any packets [pre] of the same tick: if the low
    nibble of its first data byte is the receive channel, the note-state
    entry of its note (second data byte) holds the received velocity byte
    for command 0x9, whatever it is, and 0 for command 0x8, whatever
    velocity the packet carries, and no other entry changes; if the channel
    differs, the packet leaves the note state as it was. *)
Theorem note_packet_updates_ledger
        cfg (pre : list MIDI_EventPacket_t) (ev : MIDI_EventPacket_t)
        (s : state) :
  Command ev = 0x9 \/ Command ev = 0x8 ->
  let before := exec (receive_loop cfg pre) s in
  let after := exec (receive_loop cfg (pre ++ [ev])) s in
  (Z.land (Data1 ev) 0x0f = g_midi_channel cfg ->
     (Command ev = 0x9 -> g_midi_note_state after (Data2 ev) = Data3 ev) /\
     (Command ev = 0x8 -> g_midi_note_state after (Data2 ev) = 0) /\
     (forall n, n <> Data2 ev ->
                g_midi_note_state after n = g_midi_note_state before n)) /\
  (Z.land (Data1 ev) 0x0f <> g_midi_channel cfg -> after = before).
Proof.
  intros Hcmd before after.
  assert (Hafter : after = exec (receive_packet cfg ev) before).
  { unfold after, before.
    now rewrite exec_receive_loop_app, exec_receive_loop_one. }
  clearbody before after. subst after. unfold exec.
  rewrite (receive_note_packet cfg ev before Hcmd).
  split.
  - intros Hch. apply Z.eqb_eq in Hch. rewrite Hch. simpl.
    unfold upd. repeat split.
    + intros H9. rewrite H9, Z.eqb_refl. reflexivity.
    + intros H8. rewrite H8, Z.eqb_refl. reflexivity.
    + intros n Hn. apply Z.eqb_neq in Hn. now rewrite Hn.
  - intros Hch. apply Z.eqb_neq in Hch. rewrite Hch. reflexivity.
Qed.

(** ** Outputs and frames of composed commands *)

Section Emits.

Context (P : action -> Prop).

Lemma emits_ret {A} (a : A) : emits P (ret a).
Proof. intros s. constructor. Qed.

Lemma emits_gets {A} (f : state -> A) : emits P (gets f).
Proof. intros s. constructor. Qed.

Lemma emits_modify (f : state -> state) : emits P (modify f).
Proof. intros s. constructor. Qed.

Lemma emits_emit (a : action) : P a -> emits P (emit a).
Proof. intros Ha s. repeat constructor. exact Ha. Qed.

Lemma emits_bind {A B} (m : M A) (k : A -> M B) :
  emits P m -> (forall a, emits P (k a)) -> emits P (bind m k).
Proof.
  intros Hm Hk s. rewrite trace_bind. apply Forall_app. split.
  - apply Hm.
  - apply Hk.
Qed.

Lemma emits_when (b : bool) (m : M unit) :
  (b = true -> emits P m) -> emits P (when b m).
Proof.
  intros Hm. destruct b; simpl.
  - now apply Hm.
  - apply emits_ret.
Qed.

Lemma emits_for_each (l : list Z) (body : Z -> M unit) :
  (forall i, In i l -> emits P (body i)) -> emits P (for_each l body).
Proof.
  induction l as [| i l IH]; intros Hbody; simpl.
  - apply emits_ret.
  - apply emits_bind.
    + apply Hbody. now left.
    + intros _. apply IH. intros j Hj. apply Hbody. now right.
Qed.

Lemma emits_store_note_state (note velocity : Z) :
  P (note_state_store note velocity) ->
  emits P (store_note_state note velocity).
Proof.
  intros H. unfold store_note_state. apply emits_bind.
  - apply emits_modify.
  - intros _. now apply emits_emit.
Qed.

End Emits.

Section Preserves.

Context {B : Type} (f : state -> B).

Lemma preserves_ret {A} (a : A) : preserves f (ret a).
Proof. intros s. reflexivity. Qed.

Lemma preserves_gets {A} (g : state -> A) : preserves f (gets g).
Proof. intros s. reflexivity. Qed.

Lemma preserves_emit (a : action) : preserves f (emit a).
Proof. intros s. reflexivity. Qed.

Lemma preserves_modify (g : state -> state) :
  (forall s, f (g s) = f s) -> preserves f (modify g).
Proof. intros Hg s. apply Hg. Qed.

Lemma preserves_bind {A C} (m : M A) (k : A -> M C) :
  preserves f m -> (forall a, preserves f (k a)) -> preserves f (bind m k).
Proof.
  intros Hm Hk s. rewrite exec_bind. now rewrite Hk, Hm.
Qed.

Lemma preserves_when (b : bool) (m : M unit) :
  (b = true -> preserves f m) -> preserves f (when b m).
Proof.
  intros Hm. destruct b; simpl.
  - now apply Hm.
  - apply preserves_ret.
Qed.

Lemma preserves_for_each (l : list Z) (body : Z -> M unit) :
  (forall i, In i l -> preserves f (body i)) -> preserves f (for_each l body).
Proof.
  induction l as [| i l IH]; intros Hbody; simpl.
  - apply preserves_ret.
  - apply preserves_bind.
    + apply Hbody. now left.
    + intros _. apply IH. intros j Hj. apply Hbody. now right.
Qed.

End Preserves.

(** One step of a proof that a command emits only [P]-actions or preserves
    a view: descend through the command's structure, splitting on the tests
    it makes. *)
Ltac command_step :=
  lazymatch goal with
  | |- emits _ (bind _ _) => apply emits_bind; [| intros ?]
  | |- emits _ (when _ _) => apply emits_when; intros ?
  | |- emits _ (ret _) => apply emits_ret
  | |- emits _ (gets _) => apply emits_gets
  | |- emits _ (modify _) => apply emits_modify
  | |- emits _ (emit _) => apply emits_emit
  | |- emits _ (store_note_state _ _) => apply emits_store_note_state
  | |- emits _ (for_each _ _) => apply emits_for_each; intros ? ?
  | |- emits _ (if ?b then _ else _) => destruct b eqn:?
  | |- emits _ (match ?x with _ => _ end) => destruct x eqn:?
  | |- preserves _ (bind _ _) => apply preserves_bind; [| intros ?]
  | |- preserves _ (when _ _) => apply preserves_when; intros ?
  | |- preserves _ (ret _) => apply preserves_ret
  | |- preserves _ (gets _) => apply preserves_gets
  | |- preserves _ (emit _) => apply preserves_emit
  | |- preserves _ (modify _) => apply preserves_modify; intros ?
  | |- preserves _ (for_each _ _) => apply preserves_for_each; intros ? ?
  | |- preserves _ (if ?b then _ else _) => destruct b eqn:?
  | |- preserves _ (match ?x with _ => _ end) => destruct x eqn:?
  end.

Ltac command_steps := cbv zeta; repeat (command_step; cbv zeta).

(** ** Stores into the note state *)

Lemma in_range_0_4 (i : Z) : In i (range 0 4) -> i = 0 \/ i = 1 \/ i = 2 \/ i = 3.
Proof. simpl. intuition. Qed.

(** A Note On or Note Off packet stores at the index its second data byte
    gives, unchecked; no other packet stores. *)
Lemma receive_packet_stores cfg (ev : MIDI_EventPacket_t) :
  (Command ev = 0x9 \/ Command ev = 0x8 ->
   Z.land (Data1 ev) 0x0f = g_midi_channel cfg ->
   0 <= Data2 ev < MIDI_MAX_NOTES) ->
  emits store_in_table (receive_packet cfg ev).
Proof.
  intros Hnote. unfold receive_packet, sysex_read, sysex_end.
  command_steps; simpl; trivial.
  - apply Hnote; [left | ]; now apply Z.eqb_eq.
  - apply Hnote; [right | ]; now apply Z.eqb_eq.
Qed.

Lemma receive_loop_stores cfg (packets : list MIDI_EventPacket_t) :
  (forall ev, In ev packets ->
     Command ev = 0x9 \/ Command ev = 0x8 ->
     Z.land (Data1 ev) 0x0f = g_midi_channel cfg ->
     0 <= Data2 ev < MIDI_MAX_NOTES) ->
  emits store_in_table (receive_loop cfg packets).
Proof.
  induction packets as [| ev rest IH]; intros Hall; simpl.
  - apply emits_ret.
  - apply emits_bind.
    + apply receive_packet_stores. apply Hall. now left.
    + intros _. apply IH. intros ev' Hin. apply Hall. now right.
Qed.

(** The analog notes are 100..107. *)
Lemma analog_channel_stores cfg (adc : Z -> Z) (i : Z) :
  In i (range 0 (Z.to_nat NUM_ANALOG)) ->
  emits store_in_table (analog_channel cfg adc i).
Proof.
  intros Hi. apply in_range_0_4 in Hi.
  unfold analog_channel, analog_cc, analog_notes.
  command_steps; simpl; trivial;
    destruct Hi as [-> | [-> | [-> | ->]]]; vm_compute; intuition discriminate.
Qed.

(** C8 (amended).  The task stores into the note state at the index it is
    given, without a range check: the analog notes are 100..107, and an
    inbound Note On or Note Off packet on the receive channel stores at its
    note byte.  So every store of a tick uses an index of at most 127
    provided every such packet of the tick carries a note byte of at most
    127. *)
Theorem note_state_stores_in_table cfg pf inp (s : state) :
  (forall ev, In ev (rx_packets inp) ->
     Command ev = 0x9 \/ Command ev = 0x8 ->
     Z.land (Data1 ev) 0x0f = g_midi_channel cfg ->
     0 <= Data2 ev <= 127) ->
  forall index value,
    In (note_state_store index value) (trace (Midifighter_Task cfg pf inp) s) ->
    0 <= index <= 127.
Proof.
  intros Hpackets index value Hin.
  assert (Hall : emits store_in_table (Midifighter_Task cfg pf inp)).
  { unfold Midifighter_Task, expansion_digital, expansion_analog,
      fourbanks_setup, bank_select, bank_release, key_events, combo_events,
      update_leds, update_groundfx.
    command_steps; simpl; trivial.
    - apply receive_loop_stores. intros ev Hev Hcmd Hch.
      unfold MIDI_MAX_NOTES. pose proof (Hpackets ev Hev Hcmd Hch). lia.
    - now apply analog_channel_stores. }
  specialize (Hall s). rewrite Forall_forall in Hall.
  apply Hall in Hin. simpl in Hin. unfold MIDI_MAX_NOTES in Hin. lia.
Qed.

Lemma note_state_stores_in_table_witness :
  let task := Midifighter_Task (demo_config TRAKTOR FOURBANKS_OFF)
                               (demo_platform false)
                               (packets_input [mkPacket 0x9 0x92 127 64]) in
  In (note_state_store 127 64) (trace task power_on) /\ 0 <= 127 <= 127.
Proof.
  intros task.
  assert (Hin : In (note_state_store 127 64) (trace task power_on))
    by (left; reflexivity).
  split; [exact Hin |].
  apply (note_state_stores_in_table
           (demo_config TRAKTOR FOURBANKS_OFF) (demo_platform false)
           (packets_input [mkPacket 0x9 0x92 127 64]) power_on)
    with (value := 64); [| exact Hin].
  intros ev [<- | []] _ _. simpl. lia.
Defined.

(** C8 fails as stated: a Note On packet on the receive channel with note
    byte 200 makes the task store at index 200, behind the 128 entries of
    the table. *)
Lemma note_state_store_out_of_range :
  trace (Midifighter_Task (demo_config DEVICE_DEFAULT FOURBANKS_OFF)
                          (demo_platform false)
                          (packets_input [mkPacket 0x9 0x92 200 64]))
        power_on
  = [note_state_store 200 64; MIDI_Device_Flush; exp_set_key_led 0;
     led_set_state 0; led_groundfx_state true; PORTD_toggle]
  /\ ~ 200 <= 127.
Proof. split; [vm_compute; reflexivity | lia]. Qed.

(** ** The task before USB configuration *)

(** C9.  A run of the task while the USB device is not configured sets the
    watchdog flag and returns at once: it makes no driver call at all (no
    MIDI event, no LED update, no store) and leaves the note state, the
    selected bank, the previous analog values, the second CC value and the
    GroundFx counter exactly as they were. *)
Theorem unconfigured_tick_only_sets_flag cfg pf inp (s : state) :
  USB_Configured inp = false ->
  let s' := exec (Midifighter_Task cfg pf inp) s in
  main_watchdog_flag s' = true /\
  trace (Midifighter_Task cfg pf inp) s = [] /\
  g_midi_note_state s' = g_midi_note_state s /\
  g_key_bank_selected s' = g_key_bank_selected s /\
  g_exp_analog_prev s' = g_exp_analog_prev s /\
  second_cc_value s' = second_cc_value s /\
  g_led_groundfx_counter s' = g_led_groundfx_counter s.
Proof.
  intros Husb. unfold Midifighter_Task. rewrite Husb. simpl.
  repeat split.
Qed.

Lemma unconfigured_tick_only_sets_flag_witness :
  let task := Midifighter_Task (demo_config ABLETON FOURBANKS_INTERNAL)
                               (demo_platform false) unconfigured_input in
  USB_Configured unconfigured_input = false /\
  main_watchdog_flag (exec task power_on) = true /\
  trace task power_on = [] /\
  g_midi_note_state (exec task power_on) = g_midi_note_state power_on /\
  g_key_bank_selected (exec task power_on) = g_key_bank_selected power_on /\
  g_exp_analog_prev (exec task power_on) = g_exp_analog_prev power_on /\
  second_cc_value (exec task power_on) = second_cc_value power_on /\
  g_led_groundfx_counter (exec task power_on)
  = g_led_groundfx_counter power_on.
Proof.
  split; [reflexivity |].
  apply (unconfigured_tick_only_sets_flag
           (demo_config ABLETON FOURBANKS_INTERNAL) (demo_platform false)
           unconfigured_input power_on).
  reflexivity.
Defined.

(** ** The analog channels *)

(** Readings that differ by at least 8 have different 7-bit values. *)
Lemma cc_value_apart (a p : Z) :
  0 <= a < 2048 -> 0 <= p < 2048 -> 8 <= Z.abs (a - p) ->
  cc_value a <> cc_value p.
Proof.
  intros Ha Hp Hd. unfold cc_value, u8.
  rewrite !Z.shiftr_div_pow2 by lia. change (2 ^ 3) with 8.
  rewrite !Z.mod_small.
  - intros Heq.
    pose proof (Z.div_mod a 8 ltac:(lia)).
    pose proof (Z.div_mod p 8 ltac:(lia)).
    pose proof (Z.mod_pos_bound a 8 ltac:(lia)).
    pose proof (Z.mod_pos_bound p 8 ltac:(lia)).
    lia.
  - split; [apply Z.div_pos; lia | apply Z.div_lt_upper_bound; lia].
  - split; [apply Z.div_pos; lia | apply Z.div_lt_upper_bound; lia].
Qed.

Lemma s16_small (x : Z) : -32768 <= x < 32768 -> s16 x = x.
Proof.
  intros Hx. unfold s16.
  destruct (Z_lt_le_dec x 0) as [Hneg | Hpos].
  - replace (x mod 65536) with (x + 65536).
    + destruct (Z.ltb_spec (x + 65536) 32768); lia.
    + apply Z.mod_unique with (q := -1); lia.
  - rewrite Z.mod_small by lia.
    destruct (Z.ltb_spec x 32768); lia.
Qed.

Lemma adc_hysteresis_spec (a p : Z) :
  0 <= a < 2048 -> 0 <= p < 2048 ->
  adc_hysteresis a p = if Z.abs (a - p) <? 8 then p else a.
Proof.
  intros Ha Hp. unfold adc_hysteresis.
  rewrite s16_small by lia. reflexivity.
Qed.

Ltac frame := command_steps; try reflexivity.

Lemma receive_loop_keeps_analog_prev cfg (packets : list MIDI_EventPacket_t) :
  preserves g_exp_analog_prev (receive_loop cfg packets).
Proof.
  induction packets as [| ev rest IH]; simpl.
  - apply preserves_ret.
  - apply preserves_bind; [| intros _; exact IH].
    unfold receive_packet, sysex_read, sysex_end, store_note_state. frame.
Qed.

Lemma receive_loop_keeps_bank cfg (packets : list MIDI_EventPacket_t) :
  preserves g_key_bank_selected (receive_loop cfg packets).
Proof.
  induction packets as [| ev rest IH]; simpl.
  - apply preserves_ret.
  - apply preserves_bind; [| intros _; exact IH].
    unfold receive_packet, sysex_read, sysex_end, store_note_state. frame.
Qed.

Lemma expansion_digital_keeps {B} (f : state -> B) cfg inp :
  preserves f (expansion_digital cfg inp).
Proof. unfold expansion_digital. frame. Qed.

Lemma expansion_analog_keeps_bank cfg pf inp :
  preserves g_key_bank_selected (expansion_analog cfg pf inp).
Proof.
  unfold expansion_analog, analog_channel, analog_cc, analog_notes,
    store_note_state.
  frame.
Qed.

Lemma after_analog_keeps_analog_prev cfg pf inp :
  preserves g_exp_analog_prev (after_analog cfg pf inp).
Proof.
  unfold after_analog, fourbanks_setup, bank_select, bank_release, key_events,
    combo_events, update_leds, update_groundfx.
  frame.
Qed.

Lemma configured_task cfg pf inp :
  USB_Configured inp = true ->
  Midifighter_Task cfg pf inp =
    (receive_loop cfg (rx_packets inp) ;;
     expansion_digital cfg inp ;;
     expansion_analog cfg pf inp ;;
     after_analog cfg pf inp).
Proof. intros H. unfold Midifighter_Task. rewrite H. reflexivity. Qed.

Lemma analog_channel_prev cfg (adc : Z -> Z) (j i : Z) (s : state) :
  g_exp_analog_prev (exec (analog_channel cfg adc j) s) i =
    if i =? j then next_prev (adc j) (g_exp_analog_prev s j)
    else g_exp_analog_prev s i.
Proof.
  unfold analog_channel. rewrite exec_bind.
  change (exec (gets (fun s0 => g_exp_analog_prev s0 j)) s) with s.
  change (result (gets (fun s0 => g_exp_analog_prev s0 j)) s)
    with (g_exp_analog_prev s j).
  cbv zeta. unfold next_prev.
  destruct (cc_value (adc j) =? cc_value (g_exp_analog_prev s j)); simpl.
  - destruct (i =? j) eqn:E; [apply Z.eqb_eq in E; now subst | reflexivity].
  - rewrite !exec_bind.
    change (exec (modify ?g) ?x) with (g x). simpl. unfold upd.
    destruct (i =? j); [reflexivity |].
    transitivity (g_exp_analog_prev (exec (analog_cc cfg j (cc_value (adc j))) s) i).
    + assert (H : preserves g_exp_analog_prev
                   (analog_notes cfg j (cc_value (adc j))
                      (cc_value (g_exp_analog_prev s j)))).
      { unfold analog_notes, store_note_state. frame. }
      now rewrite H.
    + assert (H : preserves g_exp_analog_prev
                   (analog_cc cfg j (cc_value (adc j)))).
      { unfold analog_cc. frame. }
      now rewrite H.
Qed.

Lemma analog_loop_prev cfg (adc : Z -> Z) (l : list Z) (i : Z) (s : state) :
  NoDup l ->
  g_exp_analog_prev (exec (for_each l (analog_channel cfg adc)) s) i =
    if existsb (Z.eqb i) l then next_prev (adc i) (g_exp_analog_prev s i)
    else g_exp_analog_prev s i.
Proof.
  intros Hnd. revert s. induction Hnd as [| j l Hj Hnd IH]; intros s; simpl.
  - reflexivity.
  - rewrite exec_bind, IH, analog_channel_prev.
    destruct (Z.eqb_spec i j) as [-> | Hij]; simpl.
    + destruct (existsb (Z.eqb j) l) eqn:E; [| reflexivity].
      apply existsb_exists in E. destruct E as (x & Hx & Hjx).
      apply Z.eqb_eq in Hjx. subst x. contradiction.
    + reflexivity.
Qed.

(** The average of four 10-bit samples is a 10-bit value, and the reading
    after the optional inversion is at most 1024. *)
Lemma adc_average_range inp (i : Z) :
  (forall samples, 0 <= exp_adc_read inp samples i < 1024) ->
  0 <= adc_average inp i < 1024.
Proof.
  intros Hs. unfold adc_average. simpl. unfold u16.
  pose proof (Hs 0) as H0. pose proof (Hs 1) as H1.
  pose proof (Hs 2) as H2. pose proof (Hs 3) as H3.
  rewrite (Z.mod_small (exp_adc_read inp 0 i)) by lia.
  rewrite (Z.mod_small (exp_adc_read inp 0 i + _)) by lia.
  rewrite (Z.mod_small (exp_adc_read inp 0 i + _ + _)) by lia.
  rewrite Z.mod_small by lia.
  rewrite Z.shiftr_div_pow2 by lia. change (2 ^ 2) with 4.
  split; [apply Z.div_pos; lia | apply Z.div_lt_upper_bound; lia].
Qed.

Lemma adc_invert_range cfg pf (i v : Z) :
  0 <= v < 1024 -> 0 <= adc_invert cfg pf i v <= 1024.
Proof.
  intros Hv. unfold adc_invert, u16.
  destruct (negb (g_rotate_enable cfg) && INVERT_SLIDER pf i).
  - rewrite Z.mod_small; lia.
  - lia.
Qed.

(** The previous reading of channel [i] at the end of a configured run. *)
Lemma task_analog_prev cfg pf inp (s : state) (i : Z) :
  USB_Configured inp = true -> 0 <= i < NUM_ANALOG ->
  g_exp_analog_prev (exec (Midifighter_Task cfg pf inp) s) i =
    next_prev (adc_value cfg pf inp s i) (g_exp_analog_prev s i).
Proof.
  intros Husb Hi. rewrite (configured_task cfg pf inp Husb).
  rewrite !exec_bind.
  rewrite after_analog_keeps_analog_prev.
  set (s1 := exec (expansion_digital cfg inp)
                  (exec (receive_loop cfg (rx_packets inp)) s)).
  assert (Hs1 : g_exp_analog_prev s1 = g_exp_analog_prev s).
  { unfold s1. now rewrite expansion_digital_keeps, receive_loop_keeps_analog_prev. }
  unfold expansion_analog. rewrite exec_bind.
  change (exec (gets (adc_value cfg pf inp)) s1) with s1.
  change (result (gets (adc_value cfg pf inp)) s1) with (adc_value cfg pf inp s1).
  rewrite analog_loop_prev.
  - assert (Hin : existsb (Z.eqb i) (range 0 (Z.to_nat NUM_ANALOG)) = true).
    { unfold NUM_ANALOG in *. apply existsb_exists. exists i. split.
      - simpl. lia.
      - apply Z.eqb_refl. }
    rewrite Hin. unfold adc_value. now rewrite Hs1.
  - unfold NUM_ANALOG. simpl. repeat constructor; simpl; lia.
Qed.

(** C7.  For every analog channel [i] in a configured run of the task, with
    previous stored reading [p] and new reading [a] (the average of four
    10-bit samples, after the optional inversion): if [|a - p| < 8] the
    reading used for emission and the stored previous reading are both [p];
    if [|a - p| >= 8] the reading used is [a] and the stored previous
    reading is [a] at the end of the run. *)
Theorem hysteresis_dead_band cfg pf inp (s : state) (i : Z) :
  USB_Configured inp = true ->
  0 <= i < NUM_ANALOG ->
  (forall samples, 0 <= exp_adc_read inp samples i < 1024) ->
  let p := g_exp_analog_prev s i in
  let a := adc_invert cfg pf i (adc_average inp i) in
  let s' := exec (Midifighter_Task cfg pf inp) s in
  0 <= p <= 1024 ->
  (Z.abs (a - p) < 8 ->
     adc_value cfg pf inp s i = p /\ g_exp_analog_prev s' i = p) /\
  (8 <= Z.abs (a - p) ->
     adc_value cfg pf inp s i = a /\ g_exp_analog_prev s' i = a).
Proof.
  intros Husb Hi Hsamples p a s' Hp.
  assert (Ha : 0 <= a <= 1024).
  { apply adc_invert_range. now apply adc_average_range. }
  assert (Hadc : adc_value cfg pf inp s i = if Z.abs (a - p) <? 8 then p else a).
  { unfold adc_value. fold a. fold p. apply adc_hysteresis_spec; lia. }
  unfold s'. rewrite task_analog_prev by assumption. fold p.
  rewrite Hadc. unfold next_prev. split; intros Hd.
  - destruct (Z.ltb_spec (Z.abs (a - p)) 8); [| lia].
    rewrite Z.eqb_refl. split; reflexivity.
  - destruct (Z.ltb_spec (Z.abs (a - p)) 8); [lia |].
    destruct (Z.eqb_spec (cc_value a) (cc_value p)) as [Heq | _].
    + exfalso. revert Heq. apply cc_value_apart; lia.
    + split; reflexivity.
Qed.

Lemma hysteresis_dead_band_witness :
  let cfg := demo_config TRAKTOR FOURBANKS_OFF in
  let pf := demo_platform false in
  g_exp_analog_prev
    (exec (Midifighter_Task cfg pf (slider0_input 5)) power_on) 0 = 0 /\
  g_exp_analog_prev
    (exec (Midifighter_Task cfg pf (slider0_input 520)) power_on) 0 = 520.
Proof.
  intros cfg pf. split.
  - destruct (hysteresis_dead_band cfg pf (slider0_input 5) power_on 0)
      as [Hkeep _];
      [ reflexivity | unfold NUM_ANALOG; lia | intros; simpl; lia
      | simpl; lia | ].
    apply Hkeep. vm_compute. reflexivity.
  - destruct (hysteresis_dead_band cfg pf (slider0_input 520) power_on 0)
      as [_ Hmove];
      [ reflexivity | unfold NUM_ANALOG; lia | intros; simpl; lia
      | simpl; lia | ].
    apply Hmove. vm_compute. discriminate.
Defined.

(** *** The CC and note events of one channel *)

Section Channel.

Variable cfg : config.
Variable adc : Z -> Z.
Variable i : Z.
Hypothesis channel : 0 <= i < NUM_ANALOG.

Lemma cc_a_value : u8 (MIDI_ANALOG_CC + 2 * i) = 16 + 2 * i.
Proof. unfold u8, MIDI_ANALOG_CC, NUM_ANALOG in *. apply Z.mod_small. lia. Qed.

Lemma cc_b_value : u8 (MIDI_ANALOG_CC + 2 * i + 1) = 16 + 2 * i + 1.
Proof. unfold u8, MIDI_ANALOG_CC, NUM_ANALOG in *. apply Z.mod_small. lia. Qed.

Lemma note_a_value : u8 (MIDI_ANALOG_NOTE + 2 * i) = 100 + 2 * i.
Proof. unfold u8, MIDI_ANALOG_NOTE, NUM_ANALOG in *. apply Z.mod_small. lia. Qed.

Lemma note_b_value : u8 (MIDI_ANALOG_NOTE + 2 * i + 1) = 100 + 2 * i + 1.
Proof. unfold u8, MIDI_ANALOG_NOTE, NUM_ANALOG in *. apply Z.mod_small. lia. Qed.

(** A changed 7-bit value runs the three steps of the body in order; an
    unchanged one does nothing. *)
Lemma analog_channel_run (s : state) :
  let value := cc_value (adc i) in
  let prev_value := cc_value (g_exp_analog_prev s i) in
  analog_channel cfg adc i s =
    if value =? prev_value then (tt, s, [])
    else
      (analog_cc cfg i value ;;
       analog_notes cfg i value prev_value ;;
       modify (set_g_exp_analog_prev i (adc i))) s.
Proof.
  intros value prev_value. unfold analog_channel.
  unfold bind at 1. unfold gets at 1. fold value. fold prev_value.
  destruct (value =? prev_value); simpl.
  - reflexivity.
  - destruct ((analog_cc cfg i value ;;
               analog_notes cfg i value prev_value ;;
               modify (set_g_exp_analog_prev i (adc i))) s) as [[u s1] t1].
    reflexivity.
Qed.

(** The result of step 3 in Traktor mode. *)
Lemma analog_notes_run (value prev_value : Z) (s : state) :
  g_device_mode cfg = TRAKTOR ->
  let note_a := 100 + 2 * i in
  let note_b := 100 + 2 * i + 1 in
  let on_ note := (tt, set_g_midi_note_state note (g_midi_velocity cfg) s,
                   [midi_stream_note note true;
                    note_state_store note (g_midi_velocity cfg)]) in
  let off_ note := (tt, set_g_midi_note_state note 0 s,
                    [midi_stream_note note false; note_state_store note 0]) in
  analog_notes cfg i value prev_value s =
    if (value <=? 3) && (3 <? prev_value) then on_ note_a
    else if (3 <? value) && (prev_value <=? 3) then off_ note_a
    else if (124 <=? value) && (prev_value <? 124) then on_ note_b
    else if (value <? 124) && (124 <=? prev_value) then off_ note_b
    else (tt, s, []).
Proof.
  intros Hmode. unfold analog_notes, is_traktor. rewrite Hmode.
  rewrite note_a_value, note_b_value.
  change NOTEON_LOW with 3. change NOTEON_HIGH with 124. simpl.
  destruct ((value <=? 3) && (3 <? prev_value)); [reflexivity |].
  destruct ((3 <? value) && (prev_value <=? 3)); [reflexivity |].
  destruct ((124 <=? value) && (prev_value <? 124)); [reflexivity |].
  destruct ((value <? 124) && (124 <=? prev_value)); reflexivity.
Qed.

(** The result of steps 1 and 2 in Traktor mode. *)
Lemma analog_cc_run (value : Z) (s : state) :
  g_device_mode cfg = TRAKTOR ->
  let cc_a := 16 + 2 * i in
  let cc_b := 16 + 2 * i + 1 in
  let first := midi_stream_cc cc_a (remap value 3 124 0 127) in
  analog_cc cfg i value s =
    if (3 <=? value) && (value <=? 124) then
      if 64 <=? value then
        (tt, set_second_cc_value (remap value 64 124 0 105) s,
         [first; midi_stream_cc cc_b (remap value 64 124 0 105)])
      else if 0 <? second_cc_value s then
        (tt, set_second_cc_value 0 s, [first; midi_stream_cc cc_b 0])
      else (tt, s, [first])
    else (tt, s, []).
Proof.
  intros Hmode. unfold analog_cc, is_traktor. rewrite Hmode.
  rewrite cc_a_value, cc_b_value.
  change NOTEON_LOW with 3. change NOTEON_HIGH with 124. simpl.
  destruct ((3 <=? value) && (value <=? 124)); [| reflexivity].
  run_task.
  destruct (64 <=? value); [reflexivity |].
  run_task.
  destruct (0 <? second_cc_value s); reflexivity.
Qed.

End Channel.

(** In Traktor mode the note events and the note state after a changed
    channel are those of step 3, and its CC events and second CC value are
    those of steps 1 and 2. *)
Lemma analog_channel_traktor cfg (adc : Z -> Z) (i : Z) (s : state) :
  0 <= i < NUM_ANALOG ->
  g_device_mode cfg = TRAKTOR ->
  let value := cc_value (adc i) in
  let prev_value := cc_value (g_exp_analog_prev s i) in
  value <> prev_value ->
  let s' := exec (analog_channel cfg adc i) s in
  let t := trace (analog_channel cfg adc i) s in
  note_actions t = trace (analog_notes cfg i value prev_value) s /\
  g_midi_note_state s'
  = g_midi_note_state (exec (analog_notes cfg i value prev_value) s) /\
  cc_actions t = trace (analog_cc cfg i value) s /\
  second_cc_value s' = second_cc_value (exec (analog_cc cfg i value) s).
Proof.
  intros Hi Hmode value prev_value Hchanged s' t.
  unfold s', t, exec, trace.
  rewrite analog_channel_run by assumption. fold value. fold prev_value.
  apply Z.eqb_neq in Hchanged. rewrite Hchanged.
  unfold bind.
  rewrite (analog_cc_run cfg i Hi value s Hmode).
  rewrite (analog_notes_run cfg i Hi value prev_value s Hmode).
  destruct ((3 <=? value) && (value <=? 124));
    [destruct (64 <=? value); [| destruct (0 <? second_cc_value s)] |];
    rewrite analog_notes_run by assumption;
    destruct ((value <=? 3) && (3 <? prev_value));
    try destruct ((3 <? value) && (prev_value <=? 3));
    try destruct ((124 <=? value) && (prev_value <? 124));
    try destruct ((value <? 124) && (124 <=? prev_value));
    simpl; repeat split.
Qed.

(** Decide the comparisons a goal branches on, dropping the impossible
    combinations as they appear. *)
Ltac split_tests :=
  repeat match goal with
         | |- context [?a <=? ?b] => destruct (Z.leb_spec a b); try lia
         | |- context [?a <? ?b] => destruct (Z.ltb_spec a b); try lia
         end.

Lemma upd_same (f : Z -> Z) (i v : Z) : upd f i v i = v.
Proof. unfold upd. now rewrite Z.eqb_refl. Qed.

(** C3 (amended).  In Traktor mode, for an analog channel [i] whose 7-bit
    value changed: entering the bottom zone (value <= 3, previous value > 3)
    emits Note-On for note_a and stores the configured velocity
    [g_midi_velocity] for note_a; leaving the bottom zone (value > 3,
    previous value <= 3) emits Note-Off for note_a and stores 0; entering
    the top zone from between the zones (value >= 124, 3 < previous value <
    124) emits Note-On for note_b and stores the configured velocity;
    leaving the top zone to between the zones (3 < value < 124, previous
    value >= 124) emits Note-Off for note_b and stores 0; in all other cases
    no note is emitted and nothing is stored. *)
Theorem dual_zone_notes cfg (adc : Z -> Z) (i : Z) (s : state) :
  0 <= i < NUM_ANALOG ->
  g_device_mode cfg = TRAKTOR ->
  let value := cc_value (adc i) in
  let prev_value := cc_value (g_exp_analog_prev s i) in
  value <> prev_value ->
  let t := note_actions (trace (analog_channel cfg adc i) s) in
  let s' := exec (analog_channel cfg adc i) s in
  let note_a := 100 + 2 * i in
  let note_b := 100 + 2 * i + 1 in
  let velocity := g_midi_velocity cfg in
  (value <= 3 -> 3 < prev_value ->
     In (midi_stream_note note_a true) t /\
     g_midi_note_state s' note_a = velocity) /\
  (3 < value -> prev_value <= 3 ->
     In (midi_stream_note note_a false) t /\
     g_midi_note_state s' note_a = 0) /\
  (124 <= value -> 3 < prev_value < 124 ->
     In (midi_stream_note note_b true) t /\
     g_midi_note_state s' note_b = velocity) /\
  (3 < value < 124 -> 124 <= prev_value ->
     In (midi_stream_note note_b false) t /\
     g_midi_note_state s' note_b = 0) /\
  (~ (value <= 3 /\ 3 < prev_value) ->
   ~ (3 < value /\ prev_value <= 3) ->
   ~ (124 <= value /\ prev_value < 124) ->
   ~ (value < 124 /\ 124 <= prev_value) ->
   t = []).
Proof.
  intros Hi Hmode value prev_value Hchanged t s' note_a note_b velocity.
  destruct (analog_channel_traktor cfg adc i s Hi Hmode Hchanged)
    as (Ht & Hs & _).
  fold value in Ht, Hs. fold prev_value in Ht, Hs.
  unfold t, s'. rewrite Ht, Hs. unfold trace, exec.
  rewrite analog_notes_run by assumption.
  clearbody value prev_value. clear Ht Hs Hchanged t s'.
  repeat split; intros; split_tests; simpl; try lia;
    try apply upd_same; auto.
Qed.

Lemma dual_zone_notes_witness :
  let cfg := demo_config TRAKTOR FOURBANKS_OFF in
  let s := set_g_exp_analog_prev 0 800 power_on in
  let adc := fun _ : Z => 1000 in
  In (midi_stream_note 101 true)
     (note_actions (trace (analog_channel cfg adc 0) s)) /\
  g_midi_note_state (exec (analog_channel cfg adc 0) s) 101 = 127.
Proof.
  intros cfg s adc.
  destruct (dual_zone_notes cfg adc 0 s) as (_ & _ & Htop & _);
    [ unfold NUM_ANALOG; lia | reflexivity | vm_compute; discriminate | ].
  apply Htop; vm_compute; try split; solve [reflexivity | discriminate].
Defined.

(** C3 fails as stated.  In Traktor mode, with channel 0 previously at 0, a
    reading of 1023 takes the 7-bit value from 0 to 127, into the top zone,
    and the task emits Note-Off for note 100 only: no Note-On for note 101,
    whose entry stays 0.  And with a configured velocity of 0, entering the
    bottom zone (reading 800, then 0) emits Note-On for note 100 and stores
    0 for it. *)
Lemma top_zone_entered_without_note_on :
  let idle := [MIDI_Device_Flush; exp_set_key_led 0; led_set_state 0;
               led_groundfx_state true; PORTD_toggle] in
  let task := Midifighter_Task (demo_config TRAKTOR FOURBANKS_OFF)
                               (demo_platform false) (slider0_input 1023) in
  (cc_value (adc_value (demo_config TRAKTOR FOURBANKS_OFF)
                       (demo_platform false)
                       (slider0_input 1023) power_on 0) = 127 /\
   cc_value (g_exp_analog_prev power_on 0) = 0 /\
   trace task power_on
   = [midi_stream_note 100 false; note_state_store 100 0] ++ idle /\
   ~ In (midi_stream_note 101 true) (trace task power_on) /\
   g_midi_note_state (exec task power_on) 101 = 0) /\
  (let run := ticks zero_velocity_config (demo_platform false)
                    [slider0_input 800; slider0_input 0] power_on in
   cc_value 800 = 100 /\ cc_value 0 = 0 /\
   snd run
   = [ [midi_stream_cc 16 101; midi_stream_cc 17 63;
        midi_stream_note 100 false; note_state_store 100 0] ++ idle;
       [midi_stream_note 100 true; note_state_store 100 0] ++ idle ] /\
   g_midi_note_state (fst run) 100 = 0).
Proof.
  intros idle task. split.
  - assert (Ht : trace task power_on
                 = [midi_stream_note 100 false; note_state_store 100 0]
                     ++ idle)
      by (vm_compute; reflexivity).
    repeat split; try (vm_compute; reflexivity); try exact Ht.
    rewrite Ht. simpl. intuition discriminate.
  - vm_compute. repeat split.
Qed.

(** C4 (amended).  In Traktor mode, with the bottom zone the 7-bit values
    up to 3 and the top zone the values from 124: a change between the
    bottom zone and the values between the zones, in either direction (such
    as from 2 to 4), emits exactly one note event, for note_a; a change from
    between the zones into the top zone (such as from 123 to 126) emits
    Note-On for note_b; a change from the top zone back to between the zones
    emits Note-Off for note_b, once; and a run in which the value stays
    inside one zone (such as from 124 to 126) or does not change emits no
    note. *)
Theorem dual_zone_crossings cfg (adc : Z -> Z) (i : Z) (s : state) :
  0 <= i < NUM_ANALOG ->
  g_device_mode cfg = TRAKTOR ->
  let value := cc_value (adc i) in
  let prev_value := cc_value (g_exp_analog_prev s i) in
  let t := note_actions (trace (analog_channel cfg adc i) s) in
  let note_a := 100 + 2 * i in
  let note_b := 100 + 2 * i + 1 in
  (prev_value <= 3 -> 3 < value < 124 ->
     exists onoff v,
       t = [midi_stream_note note_a onoff; note_state_store note_a v]) /\
  (3 < prev_value < 124 -> value <= 3 ->
     exists onoff v,
       t = [midi_stream_note note_a onoff; note_state_store note_a v]) /\
  (3 < prev_value < 124 -> 124 <= value ->
     t = [midi_stream_note note_b true;
          note_state_store note_b (g_midi_velocity cfg)]) /\
  (124 <= prev_value -> 3 < value < 124 ->
     t = [midi_stream_note note_b false; note_state_store note_b 0]) /\
  ((prev_value <= 3 /\ value <= 3) \/
   (3 < prev_value < 124 /\ 3 < value < 124) \/
   (124 <= prev_value /\ 124 <= value) ->
   t = []).
Proof.
  intros Hi Hmode value prev_value t note_a note_b.
  destruct (Z.eq_dec value prev_value) as [Hsame | Hchanged].
  - assert (Ht : t = []).
    { unfold t, trace. rewrite analog_channel_run by assumption.
      fold value. fold prev_value.
      apply Z.eqb_eq in Hsame. now rewrite Hsame. }
    rewrite Ht. repeat split; intros; solve [lia | reflexivity].
  - destruct (analog_channel_traktor cfg adc i s Hi Hmode Hchanged)
      as (Ht & _).
    fold value in Ht. fold prev_value in Ht.
    unfold t. rewrite Ht. unfold trace.
    rewrite analog_notes_run by assumption.
    clearbody value prev_value. clear Ht Hchanged t.
    repeat split; intros; split_tests; simpl; try lia;
      try reflexivity; eauto.
Qed.

Lemma dual_zone_crossings_witness :
  let cfg := demo_config TRAKTOR FOURBANKS_OFF in
  let adc := fun _ : Z => 1008 in
  (cc_value 984 = 123 /\ cc_value 992 = 124 /\ cc_value 1008 = 126) /\
  note_actions
    (trace (analog_channel cfg adc 0) (set_g_exp_analog_prev 0 984 power_on))
  = [midi_stream_note 101 true; note_state_store 101 127] /\
  note_actions
    (trace (analog_channel cfg adc 0) (set_g_exp_analog_prev 0 992 power_on))
  = [].
Proof.
  intros cfg adc. split; [repeat split |]. split.
  - destruct (dual_zone_crossings cfg adc 0
                (set_g_exp_analog_prev 0 984 power_on))
      as (_ & _ & Henter & _);
      [ unfold NUM_ANALOG; lia | reflexivity | ].
    apply Henter; vm_compute; try split; solve [reflexivity | discriminate].
  - destruct (dual_zone_crossings cfg adc 0
                (set_g_exp_analog_prev 0 992 power_on))
      as (_ & _ & _ & _ & Hstay);
      [ unfold NUM_ANALOG; lia | reflexivity | ].
    apply Hstay. right. right. vm_compute. split; discriminate.
Defined.

(** C4 fails as stated.  In Traktor mode, channel 0 read at 800, 992 and
    1008 in three runs from power on has the 7-bit values 100, 124 and 126:
    the Note-On for note 101 is emitted in the second run, on reaching 124,
    and the third run, from 124 to 126, emits no note.  Read at 16 and then
    32, the value goes from 2 to 4 and the task emits Note-Off for note
    100. *)
Lemma no_note_on_from_124_to_126 :
  let cfg := demo_config TRAKTOR FOURBANKS_OFF in
  let pf := demo_platform false in
  let idle := [MIDI_Device_Flush; exp_set_key_led 0; led_set_state 0;
               led_groundfx_state true; PORTD_toggle] in
  (cc_value 992 = 124 /\ cc_value 1008 = 126 /\
   snd (ticks cfg pf [slider0_input 800; slider0_input 992; slider0_input 1008]
              power_on)
   = [ [midi_stream_cc 16 101; midi_stream_cc 17 63;
        midi_stream_note 100 false; note_state_store 100 0] ++ idle;
       [midi_stream_cc 16 127; midi_stream_cc 17 105;
        midi_stream_note 101 true; note_state_store 101 127] ++ idle;
       idle ]) /\
  (cc_value 16 = 2 /\ cc_value 32 = 4 /\
   snd (ticks cfg pf [slider0_input 16; slider0_input 32] power_on)
   = [ idle;
       [midi_stream_cc 16 1; midi_stream_note 100 false;
        note_state_store 100 0] ++ idle ]).
Proof. vm_compute. repeat split. Qed.


(** ** Bank selection *)

(** [x & (1 << k)] is nonzero exactly when bit [k] of [x] is set. *)
Lemma bit_and_testbit (x k : Z) :
  0 <= k -> bit_and x (Z.shiftl 1 k) = Z.testbit x k.
Proof.
  intros Hk. unfold bit_and.
  destruct (Z.testbit x k) eqn:Hbit.
  - apply negb_true_iff, Z.eqb_neq. intros Hzero.
    assert (Hk' : Z.testbit (Z.land x (Z.shiftl 1 k)) k = true).
    { rewrite Z.land_spec, Hbit, Z.shiftl_spec by lia.
      now rewrite Z.sub_diag. }
    rewrite Hzero, Z.bits_0 in Hk'. discriminate.
  - apply negb_false_iff, Z.eqb_eq. apply Z.bits_inj'. intros n Hn.
    rewrite Z.land_spec, Z.bits_0, Z.shiftl_spec by lia.
    destruct (Z.eq_dec n k) as [-> | Hnk].
    + now rewrite Hbit.
    + replace (Z.testbit 1 (n - k)) with false; [apply andb_false_r |].
      destruct (Z_lt_le_dec n k).
      * now rewrite Z.testbit_neg_r by lia.
      * symmetry. change 1 with (Z.ones 1).
        apply Z.ones_spec_high. lia.
Qed.

(** A nonzero low nibble has one of the bits 0..3 set. *)
Lemma low_nibble_testbit (x : Z) :
  bit_and x 0x000f = true <-> exists k, 0 <= k < 4 /\ Z.testbit x k = true.
Proof.
  unfold bit_and. rewrite negb_true_iff, Z.eqb_neq. split.
  - intros Hnz.
    destruct (Z.testbit x 0) eqn:H0; [exists 0; split; [lia | assumption] |].
    destruct (Z.testbit x 1) eqn:H1; [exists 1; split; [lia | assumption] |].
    destruct (Z.testbit x 2) eqn:H2; [exists 2; split; [lia | assumption] |].
    destruct (Z.testbit x 3) eqn:H3; [exists 3; split; [lia | assumption] |].
    exfalso. apply Hnz. apply Z.bits_inj'. intros n Hn.
    rewrite Z.land_spec, Z.bits_0. change 15 with (Z.ones 4).
    destruct (Z_lt_le_dec n 4).
    + assert (Hcase : n = 0 \/ n = 1 \/ n = 2 \/ n = 3) by lia.
      destruct Hcase as [-> | [-> | [-> | ->]]];
        [rewrite H0 | rewrite H1 | rewrite H2 | rewrite H3]; reflexivity.
    + rewrite Z.ones_spec_high by lia. apply andb_false_r.
  - intros (k & Hk & Hbit) Hzero.
    assert (Hk' : Z.testbit (Z.land x 15) k = true).
    { rewrite Z.land_spec, Hbit. change 15 with (Z.ones 4).
      now rewrite Z.ones_spec_low by lia. }
    rewrite Hzero, Z.bits_0 in Hk'. discriminate.
Qed.

Lemma bank_scan_step (fuel : nat) (down bank_bit new_bank : Z) :
  bank_scan (S fuel) down bank_bit new_bank =
    if negb (bit_and down bank_bit) && (new_bank <? 4)
    then bank_scan fuel down (u8 (Z.shiftl bank_bit 1)) (u8 (new_bank + 1))
    else new_bank.
Proof. reflexivity. Qed.

Lemma bank_scan_done (fuel : nat) (down bank_bit : Z) :
  bank_scan fuel down bank_bit 4 = 4.
Proof.
  destruct fuel; [reflexivity |].
  rewrite bank_scan_step. change (4 <? 4) with false.
  now rewrite andb_false_r.
Qed.

(** The scan from bit 0 returns the index of the lowest set bit among bits
    0..3, or 4 if there is none, with any fuel of at least four. *)
Lemma bank_scan_lowest (extra : nat) (down : Z) :
  bank_scan (4 + extra) down 1 0 =
    if Z.testbit down 0 then 0
    else if Z.testbit down 1 then 1
    else if Z.testbit down 2 then 2
    else if Z.testbit down 3 then 3
    else 4.
Proof.
  change (4 + extra)%nat with (S (S (S (S extra)))).
  pose proof (bit_and_testbit down 0 ltac:(lia)) as B0.
  pose proof (bit_and_testbit down 1 ltac:(lia)) as B1.
  pose proof (bit_and_testbit down 2 ltac:(lia)) as B2.
  pose proof (bit_and_testbit down 3 ltac:(lia)) as B3.
  change (Z.shiftl 1 0) with 1 in B0. change (Z.shiftl 1 1) with 2 in B1.
  change (Z.shiftl 1 2) with 4 in B2. change (Z.shiftl 1 3) with 8 in B3.
  rewrite bank_scan_step, B0.
  destruct (Z.testbit down 0); [reflexivity |].
  change (negb false && (0 <? 4)) with true. cbv iota.
  change (u8 (Z.shiftl 1 1)) with 2. change (u8 (0 + 1)) with 1.
  rewrite bank_scan_step, B1.
  destruct (Z.testbit down 1); [reflexivity |].
  change (negb false && (1 <? 4)) with true. cbv iota.
  change (u8 (Z.shiftl 2 1)) with 4. change (u8 (1 + 1)) with 2.
  rewrite bank_scan_step, B2.
  destruct (Z.testbit down 2); [reflexivity |].
  change (negb false && (2 <? 4)) with true. cbv iota.
  change (u8 (Z.shiftl 4 1)) with 8. change (u8 (2 + 1)) with 3.
  rewrite bank_scan_step, B3.
  destruct (Z.testbit down 3); [reflexivity |].
  change (negb false && (3 <? 4)) with true. cbv iota.
  change (u8 (3 + 1)) with 4.
  apply bank_scan_done.
Qed.

Lemma bank_scan_spec (down : Z) :
  (exists k, 0 <= k < 4 /\ Z.testbit down k = true) ->
  let new_bank := bank_scan 4 down 1 0 in
  0 <= new_bank < 4 /\
  Z.testbit down new_bank = true /\
  (forall k, 0 <= k < new_bank -> Z.testbit down k = false).
Proof.
  intros (k & Hk & Hbit) new_bank. unfold new_bank.
  change (bank_scan 4 down 1 0) with (bank_scan (4 + 0) down 1 0).
  rewrite (bank_scan_lowest 0 down).
  destruct (Z.testbit down 0) eqn:H0;
    [repeat split; try lia; try assumption; intros; lia |].
  destruct (Z.testbit down 1) eqn:H1;
    [repeat split; try lia; try assumption; intros j Hj;
     replace j with 0 by lia; assumption |].
  destruct (Z.testbit down 2) eqn:H2;
    [repeat split; try lia; try assumption; intros j Hj;
     assert (Hc : j = 0 \/ j = 1) by lia; destruct Hc as [-> | ->];
     assumption |].
  destruct (Z.testbit down 3) eqn:H3;
    [repeat split; try lia; try assumption; intros j Hj;
     assert (Hc : j = 0 \/ j = 1 \/ j = 2) by lia;
     destruct Hc as [-> | [-> | ->]]; assumption |].
  exfalso.
  assert (Hc : k = 0 \/ k = 1 \/ k = 2 \/ k = 3) by lia.
  destruct Hc as [-> | [-> | [-> | ->]]]; congruence.
Qed.

(** The run of the bank update when a select key went down. *)
Lemma bank_select_run (bv : bank_vars) (s : state) :
  bit_and (bank_keydown bv) 0x000f = true ->
  0 <= g_key_bank_selected s ->
  let old := g_key_bank_selected s in
  let new_bank := bank_scan 4 (bank_keydown bv) 1 0 in
  bank_select bv s =
    (tt, set_g_key_bank_selected new_bank s,
     (if negb (old =? new_bank) && Z.testbit (bank_keystate bv) old
      then [midi_stream_note old false] else [])
     ++ [midi_stream_note new_bank true]).
Proof.
  intros Hdown Hold old new_bank. unfold bank_select. rewrite Hdown.
  cbv zeta. fold new_bank. clearbody new_bank.
  run_task. fold old.
  rewrite bit_and_testbit by assumption.
  destruct (negb (old =? new_bank) && Z.testbit (bank_keystate bv) old);
    reflexivity.
Qed.

Lemma after_bank_select_keeps_bank cfg pf inp (bv : bank_vars) :
  preserves g_key_bank_selected (after_bank_select cfg pf inp bv).
Proof.
  unfold after_bank_select, bank_release, key_events, combo_events,
    update_leds, update_groundfx.
  frame.
Qed.

Lemma banked_task cfg pf inp :
  USB_Configured inp = true ->
  g_key_fourbanks_mode cfg <> FOURBANKS_OFF ->
  Midifighter_Task cfg pf inp =
    (receive_loop cfg (rx_packets inp) ;;
     expansion_digital cfg inp ;;
     expansion_analog cfg pf inp ;;
     bv <- ret (fourbanks_vars cfg inp) ;;
     bank_select bv ;;
     after_bank_select cfg pf inp bv).
Proof.
  intros Husb Hmode. rewrite configured_task by assumption.
  unfold after_analog, after_bank_select, fourbanks_setup.
  destruct (g_key_fourbanks_mode cfg); [contradiction | reflexivity ..].
Qed.

(** C2.  In a configured run in a banked mode in which at least one of the
    four bank-select bits has a down edge: the new bank is the lowest set
    bit of the down-edge bitset; it is the selected bank at the end of the
    run; and the output of the run contains, next to each other and in this
    order, a Note-Off for the old bank if the new bank differs from it and
    the old bank's select key is still held, and a Note-On for the new bank,
    which is emitted also when the new bank is the old one. *)
Theorem bank_select_on_down_edge cfg pf inp (s : state) :
  USB_Configured inp = true ->
  g_key_fourbanks_mode cfg <> FOURBANKS_OFF ->
  let bv := fourbanks_vars cfg inp in
  let old := g_key_bank_selected s in
  0 <= old < 4 ->
  (exists k, 0 <= k < 4 /\ Z.testbit (bank_keydown bv) k = true) ->
  let new_bank := bank_scan 4 (bank_keydown bv) 1 0 in
  let forced_off :=
    if negb (old =? new_bank) && Z.testbit (bank_keystate bv) old
    then [midi_stream_note old false] else [] in
  (0 <= new_bank < 4 /\
   Z.testbit (bank_keydown bv) new_bank = true /\
   (forall k, 0 <= k < new_bank -> Z.testbit (bank_keydown bv) k = false)) /\
  (forall extra : nat, bank_scan (4 + extra) (bank_keydown bv) 1 0 = new_bank) /\
  g_key_bank_selected (exec (Midifighter_Task cfg pf inp) s) = new_bank /\
  exists pre post,
    trace (Midifighter_Task cfg pf inp) s
    = pre ++ forced_off ++ [midi_stream_note new_bank true] ++ post.
Proof.
  intros Husb Hmode bv old Hold Hdown new_bank forced_off.
  split; [now apply bank_scan_spec |].
  split.
  { intros extra. unfold new_bank.
    change (bank_scan 4 (bank_keydown bv) 1 0)
      with (bank_scan (4 + 0) (bank_keydown bv) 1 0).
    now rewrite !bank_scan_lowest. }
  rewrite banked_task by assumption.
  set (s3 := exec (expansion_analog cfg pf inp)
               (exec (expansion_digital cfg inp)
                  (exec (receive_loop cfg (rx_packets inp)) s))).
  assert (Hs3 : g_key_bank_selected s3 = old).
  { unfold s3. now rewrite expansion_analog_keeps_bank,
      expansion_digital_keeps, receive_loop_keeps_bank. }
  assert (Hrun : bank_select bv s3 =
                 (tt, set_g_key_bank_selected new_bank s3,
                  forced_off ++ [midi_stream_note new_bank true])).
  { unfold forced_off, new_bank. rewrite <- Hs3.
    apply bank_select_run.
    - now apply low_nibble_testbit.
    - rewrite Hs3. lia. }
  split.
  - do 5 rewrite exec_bind. fold s3.
    change (exec (ret (fourbanks_vars cfg inp)) s3) with s3.
    change (result (ret (fourbanks_vars cfg inp)) s3) with bv.
    rewrite after_bank_select_keeps_bank.
    unfold exec. rewrite Hrun. reflexivity.
  - do 5 rewrite trace_bind. fold s3.
    change (exec (ret (fourbanks_vars cfg inp)) s3) with s3.
    change (result (ret (fourbanks_vars cfg inp)) s3) with bv.
    change (trace (ret (fourbanks_vars cfg inp)) s3) with (@nil action).
    assert (Htr : trace (bank_select bv) s3
                  = forced_off ++ [midi_stream_note new_bank true])
      by (unfold trace; now rewrite Hrun).
    rewrite Htr.
    exists (trace (receive_loop cfg (rx_packets inp)) s ++
            trace (expansion_digital cfg inp)
                  (exec (receive_loop cfg (rx_packets inp)) s) ++
            trace (expansion_analog cfg pf inp)
                  (exec (expansion_digital cfg inp)
                        (exec (receive_loop cfg (rx_packets inp)) s))).
    exists (trace (after_bank_select cfg pf inp bv)
                  (exec (bank_select bv) s3)).
    cbn [app]. now rewrite <- !app_assoc.
Qed.

(** Simultaneous down edges on select bits 1 and 2 (binary 0110) in
    Fourbanks Internal mode, with banks 0, 1 and 2 held and bank 0
    selected: bank 1 is selected, after Note-Off(0) and Note-On(1). *)
Lemma bank_select_on_down_edge_witness :
  let task := Midifighter_Task (demo_config DEVICE_DEFAULT FOURBANKS_INTERNAL)
                               (demo_platform false) (keys_input 6 0 7) in
  bank_scan 4 6 1 0 = 1 /\
  g_key_bank_selected (exec task power_on) = 1 /\
  exists pre post,
    trace task power_on
    = pre ++ [midi_stream_note 0 false] ++ [midi_stream_note 1 true] ++ post.
Proof.
  intros task.
  destruct (bank_select_on_down_edge
              (demo_config DEVICE_DEFAULT FOURBANKS_INTERNAL)
              (demo_platform false) (keys_input 6 0 7) power_on)
    as (_ & _ & Hsel & Htrace);
    [ reflexivity | discriminate | simpl; lia
    | exists 1; split; [lia | reflexivity] | ].
  split; [reflexivity |]. split; [exact Hsel | exact Htrace].
Defined.

Lemma note_packet_updates_ledger_witness :
  let cfg := demo_config DEVICE_DEFAULT FOURBANKS_OFF in
  let note_on := mkPacket 0x9 0x92 60 100 in
  let note_off := mkPacket 0x8 0x82 60 64 in
  let other_channel := mkPacket 0x9 0x93 61 100 in
  g_midi_note_state (exec (receive_loop cfg [note_on]) power_on) 60 = 100 /\
  g_midi_note_state
    (exec (receive_loop cfg ([note_on] ++ [note_off])) power_on) 60 = 0 /\
  exec (receive_loop cfg ([note_on] ++ [other_channel])) power_on
  = exec (receive_loop cfg [note_on]) power_on.
Proof.
  intros cfg note_on note_off other_channel. split; [| split].
  - destruct (note_packet_updates_ledger cfg [] note_on power_on)
      as [Hmatch _]; [left; reflexivity |].
    destruct (Hmatch eq_refl) as (Hon & _ & _). exact (Hon eq_refl).
  - destruct (note_packet_updates_ledger cfg [note_on] note_off power_on)
      as [Hmatch _]; [right; reflexivity |].
    destruct (Hmatch eq_refl) as (_ & Hoff & _). exact (Hoff eq_refl).
  - destruct (note_packet_updates_ledger cfg [note_on] other_channel power_on)
      as [_ Hother]; [left; reflexivity |].
    apply Hother. vm_compute. discriminate.
Defined.

(** ** Slider inversion *)

Lemma receive_loop_no_cc cfg (c : Z) (packets : list MIDI_EventPacket_t) :
  emits (not_controller c) (receive_loop cfg packets).
Proof.
  induction packets as [| ev rest IH]; simpl.
  - apply emits_ret.
  - apply emits_bind; [| intros _; exact IH].
    unfold receive_packet, sysex_read, sysex_end.
    command_steps; simpl; trivial.
Qed.

Lemma expansion_digital_no_cc cfg inp (c : Z) :
  emits (not_controller c) (expansion_digital cfg inp).
Proof. unfold expansion_digital. command_steps; simpl; trivial. Qed.

Lemma after_analog_no_cc cfg pf inp (c : Z) :
  emits (not_controller c) (after_analog cfg pf inp).
Proof.
  unfold after_analog, fourbanks_setup, bank_select, bank_release, key_events,
    combo_events, update_leds, update_groundfx.
  command_steps; simpl; trivial.
Qed.

(** The CC events of channel [j] are on controllers 16 + 2j and
    16 + 2j + 1. *)
Lemma other_channel_no_primary_cc cfg (adc : Z -> Z) (i j : Z) :
  0 <= i < NUM_ANALOG -> 0 <= j < NUM_ANALOG -> j <> i ->
  emits (not_controller (16 + 2 * i)) (analog_channel cfg adc j).
Proof.
  intros Hi Hj Hji.
  unfold analog_channel, analog_cc, analog_notes.
  command_steps; unfold not_controller; trivial;
    unfold u8, MIDI_ANALOG_CC, NUM_ANALOG in *;
    rewrite Z.mod_small by lia; lia.
Qed.

(** A channel whose reading is 1024, or is its previous reading, emits no
    CC event. *)
Lemma inverted_channel_no_cc cfg (adc : Z -> Z) (i c : Z) (s : state) :
  adc i = 1024 \/ adc i = g_exp_analog_prev s i ->
  Forall (not_controller c) (trace (analog_channel cfg adc i) s).
Proof.
  intros Hadc. unfold analog_channel.
  rewrite trace_bind.
  change (trace (gets (fun s0 => g_exp_analog_prev s0 i)) s) with (@nil action).
  change (exec (gets (fun s0 => g_exp_analog_prev s0 i)) s) with s.
  change (result (gets (fun s0 => g_exp_analog_prev s0 i)) s)
    with (g_exp_analog_prev s i).
  cbv zeta. cbn [app].
  destruct (Z.eqb_spec (cc_value (adc i)) (cc_value (g_exp_analog_prev s i)))
    as [Heq | Hne]; simpl.
  - constructor.
  - destruct Hadc as [H1024 | Hprev]; [| now rewrite Hprev in Hne].
    rewrite H1024. change (cc_value 1024) with 128.
    assert (Hall : emits (not_controller c)
              (analog_cc cfg i 128 ;;
               analog_notes cfg i 128 (cc_value (g_exp_analog_prev s i)) ;;
               modify (set_g_exp_analog_prev i 1024))).
    { unfold analog_cc, analog_notes.
      change ((NOTEON_LOW <=? 128) && (128 <=? NOTEON_HIGH)) with false.
      command_steps; try discriminate; unfold not_controller; trivial. }
    apply Hall.
Qed.

Lemma analog_loop_no_primary_cc cfg (adc : Z -> Z) (i : Z) (l : list Z)
      (s : state) :
  0 <= i < NUM_ANALOG ->
  (forall j, In j l -> 0 <= j < NUM_ANALOG) ->
  adc i = 1024 \/ adc i = g_exp_analog_prev s i ->
  Forall (not_controller (16 + 2 * i))
         (trace (for_each l (analog_channel cfg adc)) s).
Proof.
  intros Hi. revert s. induction l as [| j l IH]; intros s Hl Hadc; simpl.
  - constructor.
  - rewrite trace_bind. apply Forall_app. split.
    + destruct (Z.eq_dec j i) as [-> | Hji].
      * now apply inverted_channel_no_cc.
      * apply other_channel_no_primary_cc; auto. apply Hl. now left.
    + apply IH.
      * intros k Hk. apply Hl. now right.
      * rewrite analog_channel_prev.
        destruct (Z.eqb_spec i j) as [<- | _]; [| exact Hadc].
        unfold next_prev.
        destruct (cc_value (adc i) =? cc_value (g_exp_analog_prev s i));
          [exact Hadc | now right].
Qed.

(** C10.  With the slider of channel [i] built inverted and the rotate flag
    off, the inversion computes 1024 minus the 10-bit average, for every
    average (and so never 1023 minus it), and the reading a run of the task
    uses for the channel is made from that difference.  For a zero average
    the inverted reading is therefore 1024, whose 7-bit value is 128, above
    the 7-bit maximum 127 and above the top of the CC range 124: the run
    keeps 1024 as the reading of the channel when the previous reading is 8
    or more away, and no CC event on the channel's first controller 16 + 2i
    is emitted in such a run of the task. *)
Theorem inverted_zero_suppresses_cc cfg pf inp (i : Z) :
  USB_Configured inp = true ->
  0 <= i < NUM_ANALOG ->
  g_rotate_enable cfg = false ->
  INVERT_SLIDER pf i = true ->
  adc_average inp i = 0 ->
  (forall average, 0 <= average < 1024 ->
     adc_invert cfg pf i average = 1024 - average /\
     adc_invert cfg pf i average <> 1023 - average) /\
  (forall (inp' : input) (s : state),
     (forall samples, 0 <= exp_adc_read inp' samples i < 1024) ->
     adc_value cfg pf inp' s i
     = adc_hysteresis (1024 - adc_average inp' i) (g_exp_analog_prev s i)) /\
  adc_invert cfg pf i (adc_average inp i) = 1024 /\
  cc_value 1024 = 128 /\
  127 < cc_value 1024 /\
  NOTEON_HIGH < cc_value 1024 /\
  (forall s : state,
     0 <= g_exp_analog_prev s i <= 1024 ->
     8 <= Z.abs (1024 - g_exp_analog_prev s i) ->
     adc_value cfg pf inp s i = 1024 /\
     g_exp_analog_prev (exec (Midifighter_Task cfg pf inp) s) i = 1024) /\
  forall (s : state) (v : Z),
    ~ In (midi_stream_cc (16 + 2 * i) v) (trace (Midifighter_Task cfg pf inp) s).
Proof.
  intros Husb Hi Hrot Hinv Havg.
  assert (Hminus : forall average, 0 <= average < 1024 ->
                     adc_invert cfg pf i average = 1024 - average).
  { intros average Ha. unfold adc_invert, u16. rewrite Hrot, Hinv.
    cbn [negb andb]. apply Z.mod_small. lia. }
  assert (H1024 : adc_invert cfg pf i (adc_average inp i) = 1024).
  { rewrite Havg, Hminus by lia. reflexivity. }
  split.
  { intros average Ha. rewrite (Hminus average Ha). split; [reflexivity | lia]. }
  split.
  { intros inp' s Hsamples. unfold adc_value.
    rewrite Hminus by now apply adc_average_range.
    reflexivity. }
  split; [exact H1024 |].
  split; [reflexivity |]. split; [reflexivity |]. split; [reflexivity |].
  split.
  { intros s Hp Hfar.
    assert (Hadc : adc_value cfg pf inp s i = 1024).
    { unfold adc_value. rewrite H1024, adc_hysteresis_spec by lia.
      destruct (Z.ltb_spec (Z.abs (1024 - g_exp_analog_prev s i)) 8);
        [lia | reflexivity]. }
    split; [exact Hadc |].
    rewrite task_analog_prev by assumption. rewrite Hadc. unfold next_prev.
    destruct (Z.eqb_spec (cc_value 1024) (cc_value (g_exp_analog_prev s i)))
      as [Heq | _]; [| reflexivity].
    exfalso. revert Heq. apply cc_value_apart; lia. }
  intros s v Hin.
  assert (Hall : Forall (not_controller (16 + 2 * i))
                        (trace (Midifighter_Task cfg pf inp) s)).
  { rewrite configured_task by assumption.
    do 3 rewrite trace_bind.
    repeat (apply Forall_app; split).
    - apply receive_loop_no_cc.
    - apply expansion_digital_no_cc.
    - unfold expansion_analog. rewrite trace_bind.
      apply Forall_app. split; [constructor |].
      apply analog_loop_no_primary_cc; [assumption | |].
      + intros j Hj. unfold NUM_ANALOG in *. simpl in Hj. lia.
      + change (result (gets (adc_value cfg pf inp)) ?x)
          with (adc_value cfg pf inp x).
        change (exec (gets (adc_value cfg pf inp)) ?x) with x.
        unfold adc_value. rewrite H1024. unfold adc_hysteresis.
        match goal with
        | |- context [if ?b then _ else _] => destruct b
        end; [now right | now left].
    - apply after_analog_no_cc. }
  rewrite Forall_forall in Hall. apply Hall in Hin. simpl in Hin.
  now apply Hin.
Qed.

Lemma inverted_zero_suppresses_cc_witness :
  let cfg := demo_config DEVICE_DEFAULT FOURBANKS_OFF in
  let pf := demo_platform true in
  (adc_invert cfg pf 0 100 = 924 /\ adc_invert cfg pf 0 1023 = 1) /\
  adc_value cfg pf (slider0_input 100) power_on 0 = 924 /\
  adc_invert cfg pf 0 (adc_average idle_input 0) = 1024 /\
  cc_value 1024 = 128 /\
  g_exp_analog_prev (exec (Midifighter_Task cfg pf idle_input) power_on) 0
  = 1024 /\
  forall v,
    ~ In (midi_stream_cc 16 v)
         (trace (Midifighter_Task cfg pf idle_input) power_on).
Proof.
  intros cfg pf.
  destruct (inverted_zero_suppresses_cc cfg pf idle_input 0)
    as (Hminus & Hread & Hinv & Hcc & _ & _ & Hkept & Hno);
    [ reflexivity | unfold NUM_ANALOG; lia | reflexivity | reflexivity
    | reflexivity | ].
  split.
  { split.
    - destruct (Hminus 100) as [H _]; [lia | exact H].
    - destruct (Hminus 1023) as [H _]; [lia | exact H]. }
  split.
  { rewrite (Hread (slider0_input 100) power_on) by (intros; simpl; lia).
    reflexivity. }
  split; [exact Hinv |]. split; [exact Hcc |].
  split.
  { destruct (Hkept power_on) as [_ H];
      [simpl; lia | vm_compute; discriminate | exact H]. }
  intros v. exact (Hno power_on v).
Defined.

(** ** Invariants of the stored values and further examples *)

(** X16.  With 10-bit samples, the stored previous reading of a channel
    stays between 0 and 1024 over a run of the task, configured or not
    (1024 is reached through the slider inversion). *)
Lemma task_keeps_analog_prev_range cfg pf inp (s : state) (i : Z) :
  0 <= i < NUM_ANALOG ->
  (forall samples, 0 <= exp_adc_read inp samples i < 1024) ->
  0 <= g_exp_analog_prev s i <= 1024 ->
  0 <= g_exp_analog_prev (exec (Midifighter_Task cfg pf inp) s) i <= 1024.
Proof.
  intros Hi Hsamples Hp.
  destruct (USB_Configured inp) eqn:Husb.
  - rewrite task_analog_prev by assumption.
    assert (Ha : 0 <= adc_invert cfg pf i (adc_average inp i) <= 1024).
    { apply adc_invert_range. now apply adc_average_range. }
    unfold next_prev, adc_value, adc_hysteresis.
    repeat match goal with
           | |- context [if ?b then _ else _] => destruct b
           end; assumption.
  - unfold Midifighter_Task. rewrite Husb. exact Hp.
Qed.

(** The bank selected after the bank update. *)
Lemma bank_select_bank (bv : bank_vars) (s : state) :
  g_key_bank_selected (exec (bank_select bv) s) =
    if bit_and (bank_keydown bv) 0x000f
    then bank_scan 4 (bank_keydown bv) 1 0
    else g_key_bank_selected s.
Proof.
  unfold bank_select.
  destruct (bit_and (bank_keydown bv) 15); [| reflexivity].
  cbv zeta. set (new_bank := bank_scan 4 (bank_keydown bv) 1 0).
  clearbody new_bank. run_task.
  destruct (negb (g_key_bank_selected s =? new_bank) &&
            bit_and (bank_keystate bv) (Z.shiftl 1 (g_key_bank_selected s)));
    reflexivity.
Qed.

Lemma task_selected_bank cfg pf inp (s : state) :
  USB_Configured inp = true ->
  g_key_bank_selected (exec (Midifighter_Task cfg pf inp) s) =
    next_bank cfg inp (g_key_bank_selected s).
Proof.
  intros Husb. rewrite configured_task by assumption.
  do 3 rewrite exec_bind.
  set (s3 := exec (expansion_analog cfg pf inp)
               (exec (expansion_digital cfg inp)
                  (exec (receive_loop cfg (rx_packets inp)) s))).
  assert (Hs3 : g_key_bank_selected s3 = g_key_bank_selected s).
  { unfold s3. now rewrite expansion_analog_keeps_bank,
      expansion_digital_keeps, receive_loop_keeps_bank. }
  change (after_analog cfg pf inp)
    with (bv <- fourbanks_setup cfg inp ;;
          bank_select bv ;; after_bank_select cfg pf inp bv).
  do 2 rewrite exec_bind. rewrite after_bank_select_keeps_bank.
  rewrite bank_select_bank.
  unfold next_bank, fourbanks_setup, fourbanks_vars.
  destruct (g_key_fourbanks_mode cfg); cbn -[bank_scan bit_and];
    try rewrite Hs3; reflexivity.
Qed.

(** The selected bank stays one of 0..3 over a run of the task. *)
Lemma task_keeps_bank_range cfg pf inp (s : state) :
  0 <= g_key_bank_selected s < 4 ->
  0 <= g_key_bank_selected (exec (Midifighter_Task cfg pf inp) s) < 4.
Proof.
  intros Hsel. destruct (USB_Configured inp) eqn:Husb.
  - rewrite task_selected_bank by assumption. unfold next_bank.
    destruct (g_key_fourbanks_mode cfg).
    + lia.
    + destruct (bit_and (g_key_down inp) 15) eqn:Hd; [| exact Hsel].
      apply low_nibble_testbit in Hd. now apply bank_scan_spec in Hd.
    + destruct (bit_and (g_exp_key_down inp) 15) eqn:Hd; [| exact Hsel].
      apply low_nibble_testbit in Hd. now apply bank_scan_spec in Hd.
  - unfold Midifighter_Task. rewrite Husb. exact Hsel.
Qed.

(** The second CC value is one variable for the four channels: after
    channel 0 went to 100 (second CC 17 at 63), a change of channel 1 below
    64 emits the zero on its own second CC (19), and the later drop of
    channel 0 below 64 emits none on CC 17. *)
Lemma second_cc_value_is_shared :
  let idle := [MIDI_Device_Flush; exp_set_key_led 0; led_set_state 0;
               led_groundfx_state true; PORTD_toggle] in
  snd (ticks (demo_config TRAKTOR FOURBANKS_OFF) (demo_platform false)
             [sliders_input 800 0; sliders_input 800 400;
              sliders_input 400 400] power_on)
  = [ [midi_stream_cc 16 101; midi_stream_cc 17 63;
       midi_stream_note 100 false; note_state_store 100 0] ++ idle;
      [midi_stream_cc 18 49; midi_stream_cc 19 0;
       midi_stream_note 102 false; note_state_store 102 0] ++ idle;
      [midi_stream_cc 16 49] ++ idle ].
Proof. vm_compute. reflexivity. Qed.


(** ** Further properties of [remap] *)

(** The result of [remap] lies between [lo] and [hi]. *)
Lemma remap_range (from to lo hi value : Z) :
  0 <= from < to /\ to <= 255 ->
  0 <= lo <= hi /\ hi <= 255 ->
  lo <= remap value from to lo hi <= hi.
Proof.
  intros Hft Hlh.
  destruct (Z_lt_le_dec value from) as [Hlt | Hge].
  - rewrite remap_below by assumption. lia.
  - destruct (Z_lt_le_dec to value) as [Hgt | Hle].
    + rewrite remap_above by assumption. lia.
    + rewrite (remap_inside from to lo hi Hft Hlh) by lia.
      assert (0 <= (value - from) * (hi - lo) / (to - from) <= hi - lo).
      { split.
        - apply Z.div_pos; nia.
        - apply Z.div_le_upper_bound; nia. }
      lia.
Qed.

(** X1.  For 8-bit parameters with [from < to] and [lo <= hi], the result
    of [remap] lies between [lo] and [hi] for every [value], and [remap] is
    monotonically non-decreasing over all values, not only over
    [[from, to]]. *)
Theorem remap_bounded_and_monotone (from to lo hi : Z) :
  0 <= from < to /\ to <= 255 ->
  0 <= lo <= hi /\ hi <= 255 ->
  (forall value, lo <= remap value from to lo hi <= hi) /\
  (forall v1 v2, v1 <= v2 -> remap v1 from to lo hi <= remap v2 from to lo hi).
Proof.
  intros Hft Hlh.
  split; [intros value; now apply remap_range |].
  intros v1 v2 H12.
  destruct (Z_lt_le_dec v1 from) as [Hlt | Hge].
  - rewrite remap_below with (value := v1) by assumption.
    now apply remap_range.
  - destruct (Z_lt_le_dec to v2) as [Hgt | Hle].
    + rewrite remap_above with (value := v2) by assumption.
      now apply remap_range.
    + apply (remap_monotone from to lo hi Hft Hlh); lia.
Qed.

Lemma remap_bounded_and_monotone_witness :
  (forall value, 0 <= remap value 3 124 0 127 <= 127) /\
  (forall v1 v2, v1 <= v2 -> remap v1 3 124 0 127 <= remap v2 3 124 0 127).
Proof. apply (remap_bounded_and_monotone 3 124 0 127); lia. Defined.

(** ** Further properties of the receive loop *)

(** X2.  A packet that is none of the events the receive loop knows is
    dropped: a 0xF packet whose first data byte is not Clock, Start or Stop,
    a packet of any command other than 0x4..0x9 and 0xF, and a Note On or
    Note Off on another channel leave every global unchanged and cause no
    driver call. *)
Theorem unknown_packet_is_dropped cfg (ev : MIDI_EventPacket_t) (s : state) :
  (Command ev = 0xF ->
   Data1 ev <> 0xF8 /\ Data1 ev <> 0xFA /\ Data1 ev <> 0xFC) ->
  (Command ev = 0x8 \/ Command ev = 0x9 ->
   Z.land (Data1 ev) 0x0f <> g_midi_channel cfg) ->
  ~ (0x4 <= Command ev <= 0x7) ->
  receive_packet cfg ev s = (tt, s, []).
Proof.
  intros Hrt Hnote Hsysex. unfold receive_packet, sysex_read, sysex_end.
  destruct (Z.eqb_spec (Command ev) 15) as [HF | _].
  - destruct (Hrt HF) as (H8 & HA & HC).
    apply Z.eqb_neq in H8, HA, HC. now rewrite H8, HA, HC.
  - destruct (Z.eqb_spec (Command ev) 4); [lia |].
    destruct (Z.eqb_spec (Command ev) 5); [lia |].
    destruct (Z.eqb_spec (Command ev) 6); [lia |].
    destruct (Z.eqb_spec (Command ev) 7); [lia |].
    cbv zeta.
    destruct (Z.eqb_spec (Z.land (Data1 ev) 15) (g_midi_channel cfg))
      as [Hch | _]; [| reflexivity].
    destruct (Z.eqb_spec (Command ev) 9) as [H9 | _];
      [exfalso; apply Hnote; auto |].
    destruct (Z.eqb_spec (Command ev) 8) as [H8 | _];
      [exfalso; apply Hnote; auto |].
    reflexivity.
Qed.

(** A Control Change packet on the receive channel is dropped. *)
Lemma unknown_packet_is_dropped_witness :
  receive_packet (demo_config DEVICE_DEFAULT FOURBANKS_OFF)
                 (mkPacket 0xB 0xB2 7 100) power_on
  = (tt, power_on, []).
Proof.
  apply unknown_packet_is_dropped; simpl; intros; try discriminate; try lia.
Defined.

(** Two commands in sequence, from their two runs. *)
Lemma bind_run {A B} (m : M A) (k : A -> M B) (s : state)
      (a : A) (s1 : state) (t1 : list action)
      (b : B) (s2 : state) (t2 : list action) :
  m s = (a, s1, t1) -> k a s1 = (b, s2, t2) ->
  bind m k s = (b, s2, t1 ++ t2).
Proof. intros Hm Hk. unfold bind. now rewrite Hm, Hk. Qed.

Lemma sysex_packets_step (a b c d : Z) (rest : list Z) :
  sysex_packets (a :: b :: c :: d :: rest)
  = mkPacket 0x4 a b c :: sysex_packets (d :: rest).
Proof. reflexivity. Qed.

Lemma receive_sysex_packets cfg (n : nat) :
  forall (payload : list Z) (s : state),
    (length payload <= n)%nat -> payload <> [] ->
    receive_loop cfg (sysex_packets payload) s
    = (tt, s, map SYSEX_READ payload ++ [SYSEX_END]).
Proof.
  induction n as [| n IH]; intros payload s Hlen Hne.
  - destruct payload; [contradiction | simpl in Hlen; lia].
  - destruct payload as [| a [| b [| c [| d rest]]]]; try contradiction;
      try reflexivity.
    rewrite sysex_packets_step.
    change (receive_loop cfg (mkPacket 4 a b c :: sysex_packets (d :: rest)))
      with (receive_packet cfg (mkPacket 4 a b c) ;;
            receive_loop cfg (sysex_packets (d :: rest))).
    apply (bind_run _ _ s tt s [SYSEX_READ a; SYSEX_READ b; SYSEX_READ c]
                    tt s (map SYSEX_READ (d :: rest) ++ [SYSEX_END])).
    + reflexivity.
    + apply IH; [simpl in *; lia | discriminate].
Qed.

(** X3.  A non-empty SysEx message sent as USB-MIDI packets (three bytes
    per 0x4 packet, the rest in a 0x5, 0x6 or 0x7 packet) reaches the SysEx
    reader whole: the receive loop forwards exactly the bytes of the
    message, in order, then signals the end once, and changes no global. *)
Theorem sysex_message_forwarded cfg (payload : list Z) (s : state) :
  payload <> [] ->
  trace (receive_loop cfg (sysex_packets payload)) s
  = map SYSEX_READ payload ++ [SYSEX_END] /\
  exec (receive_loop cfg (sysex_packets payload)) s = s.
Proof.
  intros Hne. unfold trace, exec.
  rewrite (receive_sysex_packets cfg (length payload)) by auto.
  split; reflexivity.
Qed.

Lemma sysex_message_forwarded_witness :
  trace (receive_loop (demo_config DEVICE_DEFAULT FOURBANKS_OFF)
                      (sysex_packets [0xF0; 0x00; 0x01; 0x79; 0xF7]))
        power_on
  = map SYSEX_READ [0xF0; 0x00; 0x01; 0x79; 0xF7] ++ [SYSEX_END].
Proof.
  apply (sysex_message_forwarded
           (demo_config DEVICE_DEFAULT FOURBANKS_OFF)
           [0xF0; 0x00; 0x01; 0x79; 0xF7] power_on).
  discriminate.
Defined.

(** A Clock packet increments the counter. *)
Lemma receive_clock cfg (ev : MIDI_EventPacket_t) (s : state) :
  Command ev = 0xF -> Data1 ev = 0xF8 ->
  receive_packet cfg ev s = (tt, groundfx_increment s, []).
Proof. intros HF H8. unfold receive_packet. now rewrite HF, H8. Qed.

(** A Start or Stop packet resets the counter. *)
Lemma receive_start_stop cfg (ev : MIDI_EventPacket_t) (s : state) :
  Command ev = 0xF -> Data1 ev = 0xFA \/ Data1 ev = 0xFC ->
  receive_packet cfg ev s = (tt, set_g_led_groundfx_counter 0 s, []).
Proof.
  intros HF [HA | HC]; unfold receive_packet; rewrite HF.
  - now rewrite HA.
  - now rewrite HC.
Qed.

(** Clock packets are counted one by one as long as the count stays below
    128. *)
Lemma receive_clocks cfg (packets : list MIDI_EventPacket_t) :
  (forall ev, In ev packets -> Command ev = 0xF /\ Data1 ev = 0xF8) ->
  forall s, 0 <= g_led_groundfx_counter s ->
    g_led_groundfx_counter s + Z.of_nat (length packets) < 128 ->
    receive_loop cfg packets s =
    (tt,
     set_g_led_groundfx_counter
       (g_led_groundfx_counter s + Z.of_nat (length packets)) s,
     []).
Proof.
  induction packets as [| ev rest IH]; intros Hall s Hc Hn.
  - simpl. unfold ret. rewrite Z.add_0_r.
    destruct s; reflexivity.
  - change (receive_loop cfg (ev :: rest))
      with (receive_packet cfg ev ;; receive_loop cfg rest).
    destruct (Hall ev (or_introl eq_refl)) as [HF H8].
    assert (Hlen : Z.of_nat (length (ev :: rest))
                   = 1 + Z.of_nat (length rest))
      by (cbn [length]; lia).
    rewrite Hlen in *.
    assert (Hnext : g_led_groundfx_counter (groundfx_increment s)
                    = g_led_groundfx_counter s + 1).
    { unfold groundfx_increment, u8. cbn [g_led_groundfx_counter
        set_g_led_groundfx_counter]. apply Z.mod_small. lia. }
    eapply eq_trans.
    + eapply bind_run.
      * now apply receive_clock.
      * apply IH.
        -- intros ev' Hin. apply Hall. now right.
        -- rewrite Hnext. lia.
        -- rewrite Hnext. lia.
    + rewrite Hnext, <- Z.add_assoc.
      unfold groundfx_increment, set_g_led_groundfx_counter.
      destruct s; reflexivity.
Qed.

(** X4.  The GroundFx counter counts the Clock packets received since the
    last Start or Stop packet.  As long as the count stays below 128, which
    every integer type of C holds, whatever the declared width of the
    counter: [n] Clock packets take the counter from [c] to [c + n]; and
    after any packets, a Start or Stop packet followed by [n] Clock packets
    leaves the counter at [n] (at 0 when no Clock packet follows).  None of
    these packets causes a driver call. *)
Theorem clock_packets_counted cfg (s : state) :
  (forall clocks,
     (forall ev, In ev clocks -> Command ev = 0xF /\ Data1 ev = 0xF8) ->
     0 <= g_led_groundfx_counter s ->
     g_led_groundfx_counter s + Z.of_nat (length clocks) < 128 ->
     g_led_groundfx_counter (exec (receive_loop cfg clocks) s)
     = g_led_groundfx_counter s + Z.of_nat (length clocks) /\
     trace (receive_loop cfg clocks) s = []) /\
  (forall pre ev clocks,
     Command ev = 0xF -> Data1 ev = 0xFA \/ Data1 ev = 0xFC ->
     (forall ck, In ck clocks -> Command ck = 0xF /\ Data1 ck = 0xF8) ->
     Z.of_nat (length clocks) < 128 ->
     g_led_groundfx_counter (exec (receive_loop cfg (pre ++ ev :: clocks)) s)
     = Z.of_nat (length clocks) /\
     trace (receive_loop cfg (pre ++ ev :: clocks)) s
     = trace (receive_loop cfg pre) s).
Proof.
  split.
  - intros clocks Hall Hc Hn. unfold exec, trace.
    rewrite receive_clocks by assumption. split; reflexivity.
  - intros pre ev clocks HF Hdata Hall Hn.
    set (s1 := exec (receive_loop cfg pre) s).
    assert (Hrun : receive_loop cfg (ev :: clocks) s1
                   = (tt,
                      set_g_led_groundfx_counter (Z.of_nat (length clocks))
                        (set_g_led_groundfx_counter 0 s1),
                      [])).
    { change (receive_loop cfg (ev :: clocks))
        with (receive_packet cfg ev ;; receive_loop cfg clocks).
      eapply eq_trans.
      - eapply bind_run.
        + now apply receive_start_stop.
        + apply receive_clocks; [assumption | |];
            cbn [g_led_groundfx_counter set_g_led_groundfx_counter]; lia.
      - reflexivity. }
    split.
    + rewrite exec_receive_loop_app. fold s1. unfold exec at 1.
      rewrite Hrun. reflexivity.
    + rewrite trace_receive_loop_app. fold s1. unfold trace at 2.
      rewrite Hrun. simpl. now rewrite app_nil_r.
Qed.

(** ** The phases of a configured run *)

Ltac unfold_phases :=
  unfold expansion_digital, expansion_analog, analog_channel, analog_cc,
    analog_notes, after_analog, after_bank_select, fourbanks_setup,
    bank_select, bank_release, key_events, combo_events, update_leds,
    update_groundfx, store_note_state, receive_packet, sysex_read, sysex_end.

(** Close [emits P m] or [preserves f m] for a phase [m] of the task. *)
Ltac phase := unfold_phases; command_steps; simpl; trivial.

(** The receive loop calls the SysEx reader and stores notes, nothing
    else. *)
Lemma receive_loop_emits (P : action -> Prop) cfg
      (packets : list MIDI_EventPacket_t) :
  (forall b, P (SYSEX_READ b)) -> P SYSEX_END ->
  (forall i v, P (note_state_store i v)) ->
  emits P (receive_loop cfg packets).
Proof.
  intros Hread Hend Hstore.
  induction packets as [| ev rest IH]; simpl.
  - apply emits_ret.
  - apply emits_bind; [| intros _; exact IH]. phase.
Qed.

Lemma receive_loop_keeps_counter_nonneg cfg
      (packets : list MIDI_EventPacket_t) (s : state) :
  0 <= g_led_groundfx_counter s ->
  0 <= g_led_groundfx_counter (exec (receive_loop cfg packets) s).
Proof.
  revert s. induction packets as [| ev rest IH]; intros s Hc; simpl.
  - exact Hc.
  - rewrite exec_bind. apply IH.
    unfold receive_packet, sysex_read, sysex_end, store_note_state.
    repeat match goal with
           | |- context [if ?b then _ else _] => destruct b
           end; run_task; try assumption; try lia.
    unfold u8. apply Z.mod_pos_bound. lia.
Qed.

(** Output without [led_groundfx_state] calls. *)
Lemma groundfx_free {A} (m : M A) :
  emits not_groundfx m -> forall s, groundfx_actions (trace m s) = [].
Proof.
  intros Hm s. specialize (Hm s). unfold groundfx_actions.
  induction (trace m s) as [| a t IH]; [reflexivity |].
  inversion Hm as [| a' t' Ha Ht]; subst. simpl.
  destruct a; simpl in Ha; try contradiction; now apply IH.
Qed.

(** A configured run is the receive loop, the phases up to the LED update,
    the Ground Effects update and the end of the task. *)
Lemma task_around_groundfx cfg pf inp (s : state) :
  USB_Configured inp = true ->
  let s1 := exec (receive_loop cfg (rx_packets inp)) s in
  let s2 := exec (before_groundfx cfg pf inp) s1 in
  trace (Midifighter_Task cfg pf inp) s
  = trace (receive_loop cfg (rx_packets inp)) s
    ++ trace (before_groundfx cfg pf inp) s1
    ++ trace update_groundfx s2 ++ [PORTD_toggle] /\
  exec (Midifighter_Task cfg pf inp) s
  = set_main_watchdog_flag true (exec update_groundfx s2).
Proof.
  intros Husb s1 s2. rewrite configured_task by assumption.
  subst s2. unfold after_analog, before_groundfx. split.
  - do 12 rewrite trace_bind. do 8 rewrite trace_bind.
    do 8 rewrite exec_bind. fold s1.
    rewrite <- !app_assoc. reflexivity.
  - do 12 rewrite exec_bind. do 8 rewrite exec_bind. fold s1.
    reflexivity.
Qed.

(** ** The Ground Effects LED *)

Lemma before_groundfx_no_groundfx cfg pf inp :
  emits not_groundfx (before_groundfx cfg pf inp).
Proof. unfold before_groundfx. phase. Qed.

Lemma before_groundfx_keeps_counter cfg pf inp :
  preserves g_led_groundfx_counter (before_groundfx cfg pf inp).
Proof. unfold before_groundfx. unfold_phases. frame. Qed.

Lemma update_groundfx_run (s : state) :
  let c := g_led_groundfx_counter s in
  update_groundfx s =
    if c =? 0 then (tt, s, [led_groundfx_state true])
    else if c <? 8 then (tt, s, [led_groundfx_state false])
    else if c <? 24 then (tt, s, [led_groundfx_state true])
    else (tt, set_g_led_groundfx_counter 0 s, []).
Proof.
  intros c. unfold update_groundfx. run_task. fold c.
  destruct (c =? 0); [reflexivity |].
  destruct (c <? 8); [reflexivity |].
  destruct (c <? 24); reflexivity.
Qed.

(** X5.  In a configured run, with [c] the GroundFx counter after the
    receive loop: the run calls [led_groundfx_state] exactly once, with on
    for [c = 0], off for [c] below 8 and on for [c] from 8 to 23, and it
    does not call it for [c >= 24] but resets the counter to 0 instead.  So
    the counter is below 24 at the end of every configured run. *)
Theorem groundfx_led_cycle cfg pf inp (s : state) :
  USB_Configured inp = true ->
  let c := g_led_groundfx_counter (exec (receive_loop cfg (rx_packets inp)) s) in
  let s' := exec (Midifighter_Task cfg pf inp) s in
  groundfx_actions (trace (Midifighter_Task cfg pf inp) s)
  = (if c =? 0 then [led_groundfx_state true]
     else if c <? 8 then [led_groundfx_state false]
     else if c <? 24 then [led_groundfx_state true]
     else []) /\
  g_led_groundfx_counter s' = (if c <? 24 then c else 0) /\
  (0 <= g_led_groundfx_counter s -> 0 <= g_led_groundfx_counter s' < 24).
Proof.
  intros Husb c s'.
  destruct (task_around_groundfx cfg pf inp s Husb) as [Htrace Hexec].
  set (s1 := exec (receive_loop cfg (rx_packets inp)) s) in *.
  set (s2 := exec (before_groundfx cfg pf inp) s1) in *.
  assert (Hc : g_led_groundfx_counter s2 = c).
  { unfold s2. now rewrite before_groundfx_keeps_counter. }
  assert (Hnonneg : 0 <= g_led_groundfx_counter s -> 0 <= c)
    by (apply receive_loop_keeps_counter_nonneg).
  clearbody c.
  assert (Hrun := update_groundfx_run s2). cbv zeta in Hrun.
  rewrite Hc in Hrun.
  assert (Hcount : g_led_groundfx_counter s' = if c <? 24 then c else 0).
  { unfold s'. rewrite Hexec. unfold exec. rewrite Hrun.
    destruct (Z.eqb_spec c 0); destruct (Z.ltb_spec c 8);
      destruct (Z.ltb_spec c 24); simpl; rewrite ?Hc; lia. }
  split; [| split].
  - rewrite Htrace. unfold groundfx_actions. rewrite !filter_app.
    fold (groundfx_actions (trace (receive_loop cfg (rx_packets inp)) s)).
    fold (groundfx_actions (trace (before_groundfx cfg pf inp) s1)).
    rewrite (groundfx_free (receive_loop cfg (rx_packets inp)))
      by (apply receive_loop_emits; simpl; trivial).
    rewrite (groundfx_free (before_groundfx cfg pf inp))
      by apply before_groundfx_no_groundfx.
    unfold trace. rewrite Hrun. simpl.
    destruct (c =? 0); [reflexivity |].
    destruct (c <? 8); [reflexivity |].
    destruct (c <? 24); reflexivity.
  - exact Hcount.
  - intros Hs. rewrite Hcount. apply Hnonneg in Hs.
    destruct (Z.ltb_spec c 24); lia.
Qed.

(** One Clock packet in a run from counter 23 ends the cycle: no LED call,
    counter back to 0. *)
Lemma groundfx_led_cycle_witness :
  let task := Midifighter_Task (demo_config DEVICE_DEFAULT FOURBANKS_OFF)
                               (demo_platform false)
                               (packets_input [mkPacket 0xF 0xF8 0 0]) in
  let s := set_g_led_groundfx_counter 23 power_on in
  groundfx_actions (trace task s) = [] /\
  g_led_groundfx_counter (exec task s) = 0.
Proof.
  intros task s.
  destruct (groundfx_led_cycle
              (demo_config DEVICE_DEFAULT FOURBANKS_OFF) (demo_platform false)
              (packets_input [mkPacket 0xF 0xF8 0 0]) s eq_refl)
    as (Hled & Hcount & _).
  split; [exact Hled | exact Hcount].
Defined.

Lemma clock_packets_counted_witness :
  let cfg := demo_config DEVICE_DEFAULT FOURBANKS_OFF in
  let clock := mkPacket 0xF 0xF8 0 0 in
  let start := mkPacket 0xF 0xFA 0 0 in
  g_led_groundfx_counter
    (exec (receive_loop cfg [clock; clock; clock]) power_on) = 3 /\
  g_led_groundfx_counter
    (exec (receive_loop cfg ([clock; clock] ++ [start])) power_on) = 0 /\
  g_led_groundfx_counter
    (exec (receive_loop cfg ([clock; clock; clock] ++ start :: [clock; clock]))
          power_on) = 2.
Proof.
  intros cfg clock start.
  destruct (clock_packets_counted cfg power_on) as [Hclocks Hreset].
  split; [| split].
  - apply (Hclocks [clock; clock; clock]).
    + intros ev Hin. simpl in Hin.
      destruct Hin as [<- | [<- | [<- | []]]]; split; reflexivity.
    + simpl. lia.
    + simpl. lia.
  - apply (Hreset [clock; clock] start []).
    + reflexivity.
    + left. reflexivity.
    + intros ck [].
    + simpl. lia.
  - apply (Hreset [clock; clock; clock] start [clock; clock]).
    + reflexivity.
    + left. reflexivity.
    + intros ck Hin. simpl in Hin.
      destruct Hin as [<- | [<- | []]]; split; reflexivity.
    + simpl. lia.
Defined.

(** ** The watchdog flag and the main loop *)

(** Every run of the task sets the watchdog flag. *)
Lemma task_sets_watchdog_flag cfg pf inp (s : state) :
  main_watchdog_flag (exec (Midifighter_Task cfg pf inp) s) = true.
Proof.
  destruct (USB_Configured inp) eqn:Husb.
  - destruct (task_around_groundfx cfg pf inp s Husb) as [_ Hexec].
    now rewrite Hexec.
  - unfold Midifighter_Task. now rewrite Husb.
Qed.

Lemma wdt_resets_task_actions (t : list action) :
  wdt_resets (map task_action t) = 0%nat.
Proof. unfold wdt_resets. induction t as [| a t IH]; simpl; auto. Qed.

(** X6.  Every pass of the main loop, whatever the USB state and the
    inputs, resets the watchdog exactly once, as its last action after the
    task and the two USB tasks, and leaves the watchdog flag cleared; the
    other globals are as the task left them. *)
Theorem main_loop_resets_watchdog_once cfg pf inp (s : state) :
  let s1 := exec (Midifighter_Task cfg pf inp) s in
  let s' := fst (main_loop_body cfg pf inp s) in
  let t := snd (main_loop_body cfg pf inp s) in
  t = map task_action (trace (Midifighter_Task cfg pf inp) s)
      ++ [MIDI_Device_USBTask; USB_USBTask; wdt_reset] /\
  wdt_resets t = 1%nat /\
  s' = set_main_watchdog_flag false s1 /\
  main_watchdog_flag s' = false.
Proof.
  intros s1 s' t. unfold s', t, main_loop_body. fold s1.
  assert (Hflag : main_watchdog_flag s1 = true)
    by apply task_sets_watchdog_flag.
  rewrite Hflag. cbn [fst snd].
  rewrite <- app_assoc. cbn [app].
  repeat split.
  unfold wdt_resets. rewrite filter_app, length_app.
  fold (wdt_resets (map task_action (trace (Midifighter_Task cfg pf inp) s))).
  now rewrite wdt_resets_task_actions.
Qed.

(** ** Events the task never emits *)

(** X7.  Outside Ableton mode no run of the task emits a raw CC event,
    whatever the inputs and the state. *)
Theorem raw_cc_only_in_ableton_mode cfg pf inp (s : state) :
  g_device_mode cfg <> ABLETON ->
  forall channel cc value,
    ~ In (midi_stream_raw_cc channel cc value)
         (trace (Midifighter_Task cfg pf inp) s).
Proof.
  intros Hmode channel cc value Hin.
  assert (Hall : emits not_raw_cc (Midifighter_Task cfg pf inp)).
  { unfold Midifighter_Task. command_steps; simpl; trivial.
    - apply receive_loop_emits; simpl; trivial.
    - phase.
    - phase.
    - phase.
    - phase.
    - phase.
    - unfold key_events. command_steps; simpl; trivial;
        unfold is_ableton in *; destruct (g_device_mode cfg);
        try discriminate; contradiction.
    - phase.
    - phase.
    - phase. }
  specialize (Hall s). rewrite Forall_forall in Hall.
  apply Hall in Hin. exact Hin.
Qed.

Lemma raw_cc_only_in_ableton_mode_witness :
  ~ In (midi_stream_raw_cc 3 39 127)
       (trace (Midifighter_Task (demo_config TRAKTOR FOURBANKS_OFF)
                                (demo_platform false) (keys_input 8 0 8))
              power_on).
Proof.
  apply raw_cc_only_in_ableton_mode. discriminate.
Defined.

(** ** The key loop *)

Lemma in_range (lo i : Z) (n : nat) :
  In i (range lo n) <-> lo <= i < lo + Z.of_nat n.
Proof.
  unfold range. rewrite in_map_iff. split.
  - intros (k & <- & Hk). apply in_seq in Hk. lia.
  - intros Hi. exists (Z.to_nat (i - lo)). split; [lia |].
    apply in_seq. lia.
Qed.

(** A loop whose iterations only emit. *)
Lemma for_each_run (l : list Z) (body : Z -> M unit) (f : Z -> list action)
      (s : state) :
  (forall i, In i l -> body i s = (tt, s, f i)) ->
  for_each l body s = (tt, s, flat_map f l).
Proof.
  induction l as [| i l IH]; intros Hbody; simpl.
  - reflexivity.
  - eapply bind_run.
    + apply Hbody. now left.
    + apply IH. intros j Hj. apply Hbody. now right.
Qed.

(** [x & (uint16_t)(1 << i)] for a key index. *)
Lemma bit_and_key (x i : Z) :
  0 <= i < 16 -> bit_and x (u16 (Z.shiftl 0x0001 i)) = Z.testbit x i.
Proof.
  intros Hi. unfold u16. rewrite Z.mod_small.
  - apply bit_and_testbit. lia.
  - rewrite Z.shiftl_1_l. split; [apply Z.pow_nonneg; lia |].
    change 65536 with (2 ^ 16). apply Z.pow_lt_mono_r; lia.
Qed.

(** The key loop emits the events of its keys in key order and changes no
    global. *)
Lemma key_events_run cfg pf (bv : bank_vars) (s : state) :
  keycount bv <= 16 ->
  key_events cfg pf bv s =
    (tt, s,
     flat_map (key_actions cfg pf bv (g_key_bank_selected s))
              (range 0 (Z.to_nat (keycount bv)))).
Proof.
  intros Hcount. unfold key_events. apply for_each_run.
  intros i Hi. apply in_range in Hi.
  cbv zeta. rewrite !bit_and_key by lia.
  unfold key_actions. run_task.
  destruct (Z.testbit (keydown bv) i); destruct (Z.testbit (keyup bv) i);
    destruct (is_ableton cfg); reflexivity.
Qed.

Lemma fourbanks_setup_result cfg inp (s : state) :
  result (fourbanks_setup cfg inp) s = fourbanks_vars cfg inp.
Proof. unfold fourbanks_setup. destruct (g_key_fourbanks_mode cfg); reflexivity. Qed.

Lemma fourbanks_keycount cfg inp : 0 <= keycount (fourbanks_vars cfg inp) <= 16.
Proof.
  unfold fourbanks_vars. destruct (g_key_fourbanks_mode cfg); simpl; lia.
Qed.

(** X8.  In a configured run, for every playable key [i] (below 16, or
    below 12 in Fourbanks Internal mode), the output contains, next to each
    other and in this order: on a down edge of the key, the raw CC with
    value 127 on channel [g_midi_channel + 1] (Ableton mode only) and the
    Note-On; on an up edge, the Note-Off and the raw CC with value 0
    (Ableton mode only).  The note is the one the key maps to in the bank
    selected at the end of the run, so a key that goes down in the run that
    switches banks plays in the new bank. *)
Theorem key_edge_events cfg pf inp (s : state) (i : Z) :
  USB_Configured inp = true ->
  let bv := fourbanks_vars cfg inp in
  0 <= i < keycount bv ->
  let selected := g_key_bank_selected (exec (Midifighter_Task cfg pf inp) s) in
  exists pre post,
    trace (Midifighter_Task cfg pf inp) s
    = pre ++ key_actions cfg pf bv selected i ++ post.
Proof.
  intros Husb bv Hi selected.
  pose proof (fourbanks_keycount cfg inp) as Hcount. fold bv in Hcount.
  unfold selected. rewrite configured_task by assumption.
  unfold after_analog.
  do 4 rewrite exec_bind.
  set (s3 := exec (expansion_analog cfg pf inp)
               (exec (expansion_digital cfg inp)
                  (exec (receive_loop cfg (rx_packets inp)) s))).
  rewrite fourbanks_setup_result. fold bv.
  set (s4 := exec (fourbanks_setup cfg inp) s3).
  rewrite exec_bind.
  fold (after_bank_select cfg pf inp bv).
  rewrite after_bank_select_keeps_bank.
  do 7 rewrite trace_bind. fold s3.
  rewrite fourbanks_setup_result. fold bv. fold s4.
  set (s6 := exec (bank_release bv) (exec (bank_select bv) s4)).
  assert (Hs6 : g_key_bank_selected s6
                = g_key_bank_selected (exec (bank_select bv) s4)).
  { unfold s6.
    assert (H : preserves g_key_bank_selected (bank_release bv))
      by (unfold bank_release; frame).
    apply H. }
  unfold trace at 7. rewrite key_events_run by lia. cbn [snd].
  rewrite Hs6.
  assert (Hin : In i (range 0 (Z.to_nat (keycount bv))))
    by (apply in_range; lia).
  apply in_split in Hin. destruct Hin as (l1 & l2 & Hsplit).
  rewrite Hsplit, flat_map_app. cbn [flat_map].
  match goal with
  | |- exists pre post,
        ?a ++ ?b ++ ?c ++ ?d ++ ?e ++ ?f ++ (?g ++ ?m ++ ?h) ++ ?r = _ =>
      exists (a ++ b ++ c ++ d ++ e ++ f ++ g), (h ++ r)
  end.
  now rewrite <- !app_assoc.
Qed.

Lemma key_edge_events_witness :
  exists pre post,
    trace (Midifighter_Task (demo_config ABLETON FOURBANKS_OFF)
                            (demo_platform false) (keys_input 8 0 8))
          power_on
    = pre ++ [midi_stream_raw_cc 3 39 127; midi_stream_note 39 true] ++ post.
Proof.
  assert (Hkey : 0 <= 3 < keycount (fourbanks_vars
                                     (demo_config ABLETON FOURBANKS_OFF)
                                     (keys_input 8 0 8)))
    by (simpl; lia).
  exact (key_edge_events (demo_config ABLETON FOURBANKS_OFF)
           (demo_platform false) (keys_input 8 0 8) power_on 3 eq_refl Hkey).
Defined.

(** ** The CC events of a run *)

Lemma analog_cc_valid cfg (i value : Z) :
  0 <= i < NUM_ANALOG -> emits valid_cc (analog_cc cfg i value).
Proof.
  intros Hi s. unfold analog_cc.
  rewrite cc_a_value, cc_b_value by assumption.
  change NOTEON_LOW with 3. change NOTEON_HIGH with 124.
  pose proof (remap_range 3 124 0 127 value ltac:(lia) ltac:(lia)) as Hr1.
  pose proof (remap_range 64 124 0 105 value ltac:(lia) ltac:(lia)) as Hr2.
  set (r1 := remap value 3 124 0 127) in *.
  set (r2 := remap value 64 124 0 105) in *.
  clearbody r1 r2.
  assert (Hca : 16 <= 16 + 2 * i <= 23) by (unfold NUM_ANALOG in Hi; lia).
  assert (Hcb : 16 <= 16 + 2 * i + 1 <= 23) by (unfold NUM_ANALOG in Hi; lia).
  set (ca := 16 + 2 * i) in *. set (cb := ca + 1) in *. clearbody cb ca.
  destruct ((3 <=? value) && (value <=? 124)); [| constructor].
  destruct (is_traktor cfg).
  - destruct (64 <=? value).
    + run_task. repeat constructor; simpl; lia.
    + run_task. destruct (0 <? second_cc_value s); simpl;
        repeat constructor; simpl; lia.
  - run_task. repeat constructor; simpl; lia.
Qed.

Lemma expansion_analog_valid_cc cfg pf inp :
  emits valid_cc (expansion_analog cfg pf inp).
Proof.
  unfold expansion_analog. apply emits_bind; [apply emits_gets | intros adc].
  apply emits_for_each. intros i Hi.
  apply in_range in Hi. change (Z.of_nat (Z.to_nat NUM_ANALOG)) with 4 in Hi.
  unfold analog_channel.
  apply emits_bind; [apply emits_gets | intros prev]. cbv zeta.
  apply emits_when. intros _.
  apply emits_bind; [apply analog_cc_valid; unfold NUM_ANALOG; lia |].
  intros _. unfold analog_notes. command_steps; simpl; trivial.
Qed.

(** X9.  Every CC event a run of the task emits is a valid one from the
    analog channels: its controller is one of 16..23 and its value is
    between 0 and 127, whatever the ADC readings, the inputs and the
    state. *)
Theorem cc_events_are_valid cfg pf inp (s : state) (cc value : Z) :
  In (midi_stream_cc cc value) (trace (Midifighter_Task cfg pf inp) s) ->
  16 <= cc <= 23 /\ 0 <= value <= 127.
Proof.
  intros Hin.
  assert (Hall : emits valid_cc (Midifighter_Task cfg pf inp)).
  { unfold Midifighter_Task.
    destruct (negb (USB_Configured inp)); [apply emits_modify |].
    apply emits_bind; [apply receive_loop_emits; simpl; trivial | intros _].
    apply emits_bind; [phase | intros _].
    apply emits_bind; [apply expansion_analog_valid_cc | intros _].
    phase. }
  specialize (Hall s). rewrite Forall_forall in Hall.
  apply Hall in Hin. exact Hin.
Qed.

Lemma cc_events_are_valid_witness :
  let task := Midifighter_Task (demo_config TRAKTOR FOURBANKS_OFF)
                               (demo_platform false) (slider0_input 800) in
  In (midi_stream_cc 17 63) (trace task power_on) /\
  (16 <= 17 <= 23 /\ 0 <= 63 <= 127).
Proof.
  intros task.
  assert (Hin : In (midi_stream_cc 17 63) (trace task power_on))
    by (right; left; reflexivity).
  split; [exact Hin |].
  exact (cc_events_are_valid (demo_config TRAKTOR FOURBANKS_OFF)
           (demo_platform false) (slider0_input 800) power_on 17 63 Hin).
Defined.

(** ** Runs without analog movement *)

Lemma analog_channel_steady cfg (adc : Z -> Z) (i : Z) (s : state) :
  adc i = g_exp_analog_prev s i -> analog_channel cfg adc i s = (tt, s, []).
Proof.
  intros Hsame. unfold analog_channel, bind, gets. cbv zeta.
  rewrite Hsame, Z.eqb_refl. reflexivity.
Qed.

Lemma analog_loop_steady cfg (adc : Z -> Z) (l : list Z) (s : state) :
  (forall j, In j l -> adc j = g_exp_analog_prev s j) ->
  for_each l (analog_channel cfg adc) s = (tt, s, []).
Proof.
  induction l as [| j l IH]; intros Hall; simpl.
  - reflexivity.
  - apply (bind_run _ _ s tt s [] tt s []).
    + apply analog_channel_steady. apply Hall. now left.
    + apply IH. intros k Hk. apply Hall. now right.
Qed.

(** A configured run in which every channel reads its previous value skips
    the analog channels. *)
Lemma steady_run cfg pf inp (s : state) :
  USB_Configured inp = true ->
  (forall j, 0 <= j < NUM_ANALOG ->
             adc_value cfg pf inp s j = g_exp_analog_prev s j) ->
  let s2 := exec (expansion_digital cfg inp)
                 (exec (receive_loop cfg (rx_packets inp)) s) in
  trace (Midifighter_Task cfg pf inp) s
  = trace (receive_loop cfg (rx_packets inp)) s
    ++ trace (expansion_digital cfg inp)
             (exec (receive_loop cfg (rx_packets inp)) s)
    ++ trace (after_analog cfg pf inp) s2 /\
  exec (Midifighter_Task cfg pf inp) s = exec (after_analog cfg pf inp) s2.
Proof.
  intros Husb Hsteady s2.
  assert (Hprev : g_exp_analog_prev s2 = g_exp_analog_prev s).
  { unfold s2.
    now rewrite expansion_digital_keeps, receive_loop_keeps_analog_prev. }
  assert (Hrun : expansion_analog cfg pf inp s2 = (tt, s2, [])).
  { unfold expansion_analog.
    apply (bind_run _ _ s2 (adc_value cfg pf inp s2) s2 [] tt s2 []);
      [reflexivity |].
    apply analog_loop_steady. intros j Hj. apply in_range in Hj.
    unfold adc_value. rewrite Hprev. apply Hsteady.
    unfold NUM_ANALOG in *. simpl in Hj. lia. }
  assert (Htr : trace (expansion_analog cfg pf inp) s2 = [])
    by (unfold trace; now rewrite Hrun).
  assert (Hex : exec (expansion_analog cfg pf inp) s2 = s2)
    by (unfold exec; now rewrite Hrun).
  rewrite configured_task by assumption. split.
  - do 3 rewrite trace_bind. fold s2. now rewrite Htr, Hex.
  - do 3 rewrite exec_bind. fold s2. now rewrite Hex.
Qed.

(** A reading within the dead band of the previous one is replaced by it. *)
Lemma adc_value_in_dead_band cfg pf inp (s : state) (j : Z) :
  (forall samples, 0 <= exp_adc_read inp samples j < 1024) ->
  0 <= g_exp_analog_prev s j <= 1024 ->
  Z.abs (adc_invert cfg pf j (adc_average inp j) - g_exp_analog_prev s j) < 8 ->
  adc_value cfg pf inp s j = g_exp_analog_prev s j.
Proof.
  intros Hsamples Hp Hd.
  assert (Ha : 0 <= adc_invert cfg pf j (adc_average inp j) <= 1024).
  { apply adc_invert_range. now apply adc_average_range. }
  unfold adc_value. rewrite adc_hysteresis_spec by lia.
  destruct (Z.ltb_spec
              (Z.abs (adc_invert cfg pf j (adc_average inp j)
                      - g_exp_analog_prev s j)) 8); [reflexivity | lia].
Qed.

Lemma bit_and_0 (mask : Z) : bit_and 0 mask = false.
Proof. unfold bit_and. now rewrite Z.land_0_l. Qed.

(** Output without MIDI events. *)
Lemma midi_free {A} (m : M A) :
  emits not_midi_event m -> forall s, midi_events (trace m s) = [].
Proof.
  intros Hm s. specialize (Hm s). unfold midi_events.
  induction (trace m s) as [| a t IH]; [reflexivity |].
  inversion Hm as [| a' t' Ha Ht]; subst. simpl.
  destruct a; simpl in Ha; try contradiction; now apply IH.
Qed.

(** X10.  MIDI output is edge triggered: a configured run with no key or
    expansion-key edge, no combo action, and every analog reading within
    the dead band of its previous one emits no MIDI event at all (no note,
    CC or raw CC), whatever packets it receives and whatever keys are
    held. *)
Theorem quiet_run_emits_no_midi cfg pf inp (s : state) :
  USB_Configured inp = true ->
  g_exp_key_down inp = 0 -> g_exp_key_up inp = 0 ->
  g_key_down inp = 0 -> g_key_up inp = 0 ->
  g_combos_enable cfg = false \/ combo_recognize inp = COMBO_NONE ->
  (forall j, 0 <= j < NUM_ANALOG ->
     (forall samples, 0 <= exp_adc_read inp samples j < 1024) /\
     0 <= g_exp_analog_prev s j <= 1024 /\
     Z.abs (adc_invert cfg pf j (adc_average inp j) - g_exp_analog_prev s j)
     < 8) ->
  midi_events (trace (Midifighter_Task cfg pf inp) s) = [].
Proof.
  intros Husb Hed Heu Hkd Hku Hcombo Hanalog.
  destruct (steady_run cfg pf inp s Husb) as [Htrace _].
  { intros j Hj. destruct (Hanalog j Hj) as (Hs & Hp & Hd).
    now apply adc_value_in_dead_band. }
  rewrite Htrace. unfold midi_events. rewrite !filter_app.
  fold (midi_events (trace (receive_loop cfg (rx_packets inp)) s)).
  rewrite (midi_free (receive_loop cfg (rx_packets inp)))
    by (apply receive_loop_emits; simpl; trivial).
  match goal with
  | |- context [filter ?f (trace (expansion_digital cfg inp) ?x)] =>
      change (filter f (trace (expansion_digital cfg inp) x))
        with (midi_events (trace (expansion_digital cfg inp) x))
  end.
  rewrite (midi_free (expansion_digital cfg inp)).
  2:{ unfold expansion_digital. rewrite Hed, Heu.
      command_steps; simpl; trivial;
        rewrite bit_and_0 in *; discriminate. }
  cbn [app].
  match goal with
  | |- filter ?f (trace ?m ?x) = [] =>
      change (midi_events (trace m x) = []); generalize x
  end.
  intros s2. unfold after_analog. rewrite trace_bind.
  rewrite fourbanks_setup_result.
  unfold midi_events. rewrite filter_app.
  replace (trace (fourbanks_setup cfg inp) s2) with (@nil action)
    by (unfold fourbanks_setup; destruct (g_key_fourbanks_mode cfg);
        reflexivity).
  cbn [filter app].
  match goal with
  | |- filter ?f (trace ?m ?x) = [] =>
      change (midi_events (trace m x) = []); apply midi_free
  end.
  unfold fourbanks_vars. rewrite Hed, Heu, Hkd, Hku.
  destruct (g_key_fourbanks_mode cfg) eqn:Hmode;
    unfold_phases;
    cbn [bank_keydown bank_keyup bank_keystate keydown keyup keyoffset
         keycount];
    rewrite ?Z.shiftr_0_l;
    command_steps; simpl; trivial;
    rewrite ?bit_and_0 in *; try discriminate;
    destruct Hcombo; congruence.
Qed.

Lemma quiet_run_emits_no_midi_witness :
  let inp := mkInput true [mkPacket 0x9 0x92 40 100] 0 0 1 (fun _ _ => 5)
                     0 0 0x0008 COMBO_A_DOWN in
  midi_events (trace (Midifighter_Task (demo_config ABLETON FOURBANKS_OFF)
                                       (demo_platform false) inp) power_on)
  = [].
Proof.
  intros inp.
  apply quiet_run_emits_no_midi; try reflexivity.
  - left. reflexivity.
  - intros j Hj. split; [intros samples; simpl; lia |].
    split; [simpl; lia |].
    vm_compute. reflexivity.
Defined.

Lemma adc_average_same_samples inp1 inp2 (j : Z) :
  (forall samples, exp_adc_read inp2 samples j = exp_adc_read inp1 samples j) ->
  adc_average inp2 j = adc_average inp1 j.
Proof. intros Hsame. unfold adc_average. simpl. now rewrite !Hsame. Qed.

(** After a run, the same samples read again are inside the dead band. *)
Lemma adc_value_after_run cfg pf inp1 inp2 (s : state) (j : Z) :
  USB_Configured inp1 = true ->
  0 <= j < NUM_ANALOG ->
  (forall samples, exp_adc_read inp2 samples j = exp_adc_read inp1 samples j) ->
  (forall samples, 0 <= exp_adc_read inp1 samples j < 1024) ->
  0 <= g_exp_analog_prev s j <= 1024 ->
  let s' := exec (Midifighter_Task cfg pf inp1) s in
  adc_value cfg pf inp2 s' j = g_exp_analog_prev s' j.
Proof.
  intros Husb Hj Hsame Hsamples Hp s'.
  assert (Ha : 0 <= adc_invert cfg pf j (adc_average inp1 j) <= 1024).
  { apply adc_invert_range. now apply adc_average_range. }
  assert (Hprev : g_exp_analog_prev s' j
                  = next_prev (adc_value cfg pf inp1 s j)
                              (g_exp_analog_prev s j))
    by (now apply task_analog_prev).
  unfold adc_value in *.
  rewrite (adc_average_same_samples inp1 inp2 j Hsame).
  set (a := adc_invert cfg pf j (adc_average inp1 j)) in *.
  set (p := g_exp_analog_prev s j) in *.
  rewrite Hprev. clearbody a p.
  rewrite (adc_hysteresis_spec a p) by lia. unfold next_prev.
  destruct (Z.ltb_spec (Z.abs (a - p)) 8) as [Hin | Hout].
  - rewrite Z.eqb_refl. rewrite adc_hysteresis_spec by lia.
    destruct (Z.ltb_spec (Z.abs (a - p)) 8); [reflexivity | lia].
  - destruct (Z.eqb_spec (cc_value a) (cc_value p)) as [Heq | _].
    + exfalso. revert Heq. apply cc_value_apart; lia.
    + rewrite adc_hysteresis_spec by lia.
      destruct (Z.ltb_spec (Z.abs (a - a)) 8); reflexivity.
Qed.

(** X11.  A steady reading is reported at most once: in the configured run
    that follows a configured run with the same ADC samples (10-bit samples,
    any other inputs), no CC event is emitted and the stored previous
    readings of the four channels do not change. *)
Theorem steady_reading_not_repeated cfg pf inp1 inp2 (s : state) :
  USB_Configured inp1 = true ->
  USB_Configured inp2 = true ->
  (forall samples j,
     exp_adc_read inp2 samples j = exp_adc_read inp1 samples j) ->
  (forall samples j, 0 <= j < NUM_ANALOG ->
     0 <= exp_adc_read inp1 samples j < 1024) ->
  (forall j, 0 <= j < NUM_ANALOG -> 0 <= g_exp_analog_prev s j <= 1024) ->
  let s' := exec (Midifighter_Task cfg pf inp1) s in
  (forall cc value,
     ~ In (midi_stream_cc cc value) (trace (Midifighter_Task cfg pf inp2) s')) /\
  (forall j, 0 <= j < NUM_ANALOG ->
     g_exp_analog_prev (exec (Midifighter_Task cfg pf inp2) s') j
     = g_exp_analog_prev s' j).
Proof.
  intros Husb1 Husb2 Hsame Hsamples Hprev s'.
  destruct (steady_run cfg pf inp2 s' Husb2) as [Htrace Hexec].
  { intros j Hj. apply adc_value_after_run; auto. }
  split.
  - intros cc value Hin.
    assert (Hall : Forall (not_controller cc)
                          (trace (Midifighter_Task cfg pf inp2) s')).
    { rewrite Htrace. repeat (apply Forall_app; split).
      - apply receive_loop_no_cc.
      - apply expansion_digital_no_cc.
      - apply after_analog_no_cc. }
    rewrite Forall_forall in Hall. apply Hall in Hin. simpl in Hin.
    now apply Hin.
  - intros j Hj. rewrite Hexec.
    now rewrite after_analog_keeps_analog_prev, expansion_digital_keeps,
      receive_loop_keeps_analog_prev.
Qed.

Lemma steady_reading_not_repeated_witness :
  let cfg := demo_config TRAKTOR FOURBANKS_OFF in
  let pf := demo_platform false in
  let s' := exec (Midifighter_Task cfg pf (slider0_input 800)) power_on in
  (forall cc value,
     ~ In (midi_stream_cc cc value)
          (trace (Midifighter_Task cfg pf (slider0_input 800)) s')) /\
  g_exp_analog_prev (exec (Midifighter_Task cfg pf (slider0_input 800)) s') 0
  = 800.
Proof.
  intros cfg pf s'.
  destruct (steady_reading_not_repeated cfg pf (slider0_input 800)
              (slider0_input 800) power_on) as [Hcc Hkeep];
    try reflexivity.
  - intros samples j Hj. simpl. destruct (j =? 0); lia.
  - intros j Hj. simpl. lia.
  - split; [exact Hcc |].
    transitivity (g_exp_analog_prev s' 0); [| reflexivity].
    apply Hkeep. unfold NUM_ANALOG. lia.
Defined.

(** ** Bank keys released *)

(** The release test for a selected bank in 0..3. *)
Lemma bank_release_run (bv : bank_vars) (s : state) :
  0 <= g_key_bank_selected s < 4 ->
  bank_release bv s =
    (tt, s,
     if Z.testbit (bank_keyup bv) (g_key_bank_selected s)
     then [midi_stream_note (g_key_bank_selected s) false] else []).
Proof.
  intros Hsel. unfold bank_release.
  destruct (bit_and (bank_keyup bv) 15) eqn:Hup.
  - run_task.
    assert (Hbit : u8 (Z.shiftl 1 (g_key_bank_selected s))
                   = Z.shiftl 1 (g_key_bank_selected s)).
    { unfold u8. apply Z.mod_small. rewrite Z.shiftl_1_l.
      split; [apply Z.pow_nonneg; lia |].
      change 256 with (2 ^ 8). apply Z.pow_lt_mono_r; lia. }
    rewrite Hbit, bit_and_testbit by lia.
    destruct (Z.testbit (bank_keyup bv) (g_key_bank_selected s)); reflexivity.
  - destruct (Z.testbit (bank_keyup bv) (g_key_bank_selected s)) eqn:Hbit;
      [| reflexivity].
    assert (Htrue : bit_and (bank_keyup bv) 15 = true).
    { apply low_nibble_testbit. exists (g_key_bank_selected s). now split. }
    congruence.
Qed.

Lemma bank_select_idle (bv : bank_vars) (s : state) :
  bit_and (bank_keydown bv) 0x000f = false -> bank_select bv s = (tt, s, []).
Proof. intros H. unfold bank_select. now rewrite H. Qed.

(** X12.  The bank update followed by the release test (lines 626-654),
    from a selected bank in 0..3: with no down edge on the select keys the
    only output is a Note-Off for the selected bank, and only if its own key
    was released; with a down edge the release test looks at the newly
    selected bank, so the output is the forced Note-Off for the old bank (if
    it differs and its key is still held), the Note-On for the new bank, and
    a Note-Off for the new bank if its key also went up; an old bank whose
    key went up in the same run gets no Note-Off. *)
Theorem bank_keys_pressed_and_released (bv : bank_vars) (s : state) :
  let old := g_key_bank_selected s in
  0 <= old < 4 ->
  let new_bank := bank_scan 4 (bank_keydown bv) 1 0 in
  (bit_and (bank_keydown bv) 0x000f = false ->
   (bank_select bv ;; bank_release bv) s =
     (tt, s,
      if Z.testbit (bank_keyup bv) old
      then [midi_stream_note old false] else [])) /\
  (bit_and (bank_keydown bv) 0x000f = true ->
   (bank_select bv ;; bank_release bv) s =
     (tt, set_g_key_bank_selected new_bank s,
      (if negb (old =? new_bank) && Z.testbit (bank_keystate bv) old
       then [midi_stream_note old false] else [])
      ++ [midi_stream_note new_bank true]
      ++ (if Z.testbit (bank_keyup bv) new_bank
          then [midi_stream_note new_bank false] else []))).
Proof.
  intros old Hold new_bank. split; intros Hdown.
  - eapply eq_trans.
    + eapply bind_run.
      * now apply bank_select_idle.
      * now apply bank_release_run.
    + reflexivity.
  - eapply eq_trans.
    + eapply bind_run.
      * apply bank_select_run; [assumption | lia].
      * apply bank_release_run. simpl.
        apply low_nibble_testbit in Hdown.
        now apply bank_scan_spec in Hdown.
    + cbn [g_key_bank_selected set_g_key_bank_selected].
      fold old. fold new_bank. now rewrite <- app_assoc.
Qed.

(** Bank 0 selected and held until this run, in which its key goes up while
    the key of bank 2 goes down: Note-On for bank 2 and no Note-Off for
    bank 0. *)
Lemma bank_keys_pressed_and_released_witness :
  let bv := mkBankVars 4 1 4 0 0 4 12 in
  (bank_select bv ;; bank_release bv) power_on
  = (tt, set_g_key_bank_selected 2 power_on, [midi_stream_note 2 true]).
Proof.
  intros bv.
  destruct (bank_keys_pressed_and_released bv power_on) as [_ Hdown];
    [simpl; lia |].
  exact (Hdown eq_refl).
Defined.

(** ** The selected bank *)

(** X13.  The selected bank over a run of the task: a configured run in
    Fourbanks Off mode leaves bank 0 selected; a configured run in a banked
    mode without a down edge on the four select keys leaves the selected
    bank unchanged; and any run keeps a selected bank in 0..3 in 0..3. *)
Theorem selected_bank_after_run cfg pf inp (s : state) :
  let selected' := g_key_bank_selected (exec (Midifighter_Task cfg pf inp) s) in
  (USB_Configured inp = true -> g_key_fourbanks_mode cfg = FOURBANKS_OFF ->
   selected' = 0) /\
  (USB_Configured inp = true ->
   bit_and (bank_keydown (fourbanks_vars cfg inp)) 0x000f = false ->
   g_key_fourbanks_mode cfg <> FOURBANKS_OFF ->
   selected' = g_key_bank_selected s) /\
  (0 <= g_key_bank_selected s < 4 -> 0 <= selected' < 4).
Proof.
  intros selected'. unfold selected'. split; [| split].
  - intros Husb Hoff. rewrite task_selected_bank by assumption.
    unfold next_bank. now rewrite Hoff.
  - intros Husb Hdown Hbanked. rewrite task_selected_bank by assumption.
    unfold next_bank. unfold fourbanks_vars in Hdown.
    destruct (g_key_fourbanks_mode cfg); [contradiction | |];
      simpl in Hdown; now rewrite Hdown.
  - apply task_keeps_bank_range.
Qed.

Lemma selected_bank_after_run_witness :
  let cfg := demo_config DEVICE_DEFAULT FOURBANKS_OFF in
  let s := set_g_key_bank_selected 3 power_on in
  g_key_bank_selected
    (exec (Midifighter_Task cfg (demo_platform false) idle_input) s) = 0.
Proof.
  intros cfg s.
  destruct (selected_bank_after_run cfg (demo_platform false) idle_input s)
    as (Hoff & _ & _).
  apply Hoff; reflexivity.
Defined.

(** ** The LEDs *)

Lemma testbit_u16 (x k : Z) : 0 <= k < 16 -> Z.testbit (u16 x) k = Z.testbit x k.
Proof.
  intros Hk. unfold u16. change 65536 with (2 ^ 16).
  apply Z.mod_pow2_bits_low. lia.
Qed.

Lemma testbit_u8 (x k : Z) : 0 <= k < 8 -> Z.testbit (u8 x) k = Z.testbit x k.
Proof.
  intros Hk. unfold u8. change 256 with (2 ^ 8).
  apply Z.mod_pow2_bits_low. lia.
Qed.

Lemma testbit_one_shifted (key k : Z) :
  0 <= key -> 0 <= k -> Z.testbit (Z.shiftl 1 key) k = (k =? key).
Proof.
  intros Hkey Hk. rewrite Z.shiftl_spec by lia.
  destruct (Z.eqb_spec k key) as [-> | Hne].
  - now rewrite Z.sub_diag.
  - destruct (Z_lt_le_dec k key).
    + apply Z.testbit_neg_r. lia.
    + change 1 with (Z.ones 1). apply Z.ones_spec_high. lia.
Qed.

(** The bits of the LED word after the scan of a note slice. *)
Lemma led_scan_testbit (note_state key_of : Z -> Z) (basenote : Z) (n : nat)
      (leds k : Z) :
  0 <= k < 16 ->
  (forall note, In note (range basenote n) -> 0 <= key_of note < 16) ->
  Z.testbit (led_scan note_state key_of basenote n leds) k
  = Z.testbit leds k || note_lights_key note_state key_of basenote n k.
Proof.
  intros Hk. unfold led_scan, note_lights_key.
  generalize (range basenote n) as l. intros l. revert leds.
  induction l as [| note l IH]; intros leds Hkey; simpl.
  - now rewrite orb_false_r.
  - rewrite IH by (intros note' Hin; apply Hkey; now right).
    destruct (0 <? note_state note); simpl.
    + assert (0 <= key_of note < 16) by (apply Hkey; now left).
      rewrite testbit_u16, Z.lor_spec, testbit_one_shifted by lia.
      rewrite (Z.eqb_sym k). now rewrite orb_assoc.
    + reflexivity.
Qed.

(** The bits of the expansion LED byte from the four digital notes. *)
Lemma digital_key_leds_testbit (note_state : Z -> Z) (i : Z) :
  0 <= i < 4 ->
  Z.testbit (digital_key_leds note_state) i
  = (0 <? note_state (MIDI_DIGITAL_NOTE + i)).
Proof.
  intros Hi. unfold digital_key_leds, MIDI_DIGITAL_NOTE.
  assert (Hc : i = 0 \/ i = 1 \/ i = 2 \/ i = 3) by lia.
  destruct Hc as [-> | [-> | [-> | ->]]]; simpl;
    destruct (0 <? note_state 4); destruct (0 <? note_state 5);
    destruct (0 <? note_state 6); destruct (0 <? note_state 7);
    reflexivity.
Qed.

Lemma before_groundfx_split cfg pf inp (s : state) :
  trace (before_groundfx cfg pf inp) s
  = trace (before_leds cfg pf inp) s
    ++ trace (update_leds cfg pf inp) (exec (before_leds cfg pf inp) s) /\
  exec (before_groundfx cfg pf inp) s
  = exec (update_leds cfg pf inp) (exec (before_leds cfg pf inp) s).
Proof.
  unfold before_groundfx, before_leds. split.
  - do 8 rewrite trace_bind. do 7 rewrite trace_bind.
    do 7 rewrite exec_bind.
    change (trace (emit MIDI_Device_Flush) ?x) with [MIDI_Device_Flush].
    change (exec (emit MIDI_Device_Flush) ?x) with x.
    now rewrite <- !app_assoc.
  - do 8 rewrite exec_bind. do 7 rewrite exec_bind.
    change (exec (emit MIDI_Device_Flush) ?x) with x.
    reflexivity.
Qed.

(** The LED update reads the note state and the selected bank and changes
    nothing. *)
Lemma update_leds_reads cfg pf inp (s1 s2 : state) :
  g_midi_note_state s1 = g_midi_note_state s2 ->
  g_key_bank_selected s1 = g_key_bank_selected s2 ->
  trace (update_leds cfg pf inp) s1 = trace (update_leds cfg pf inp) s2.
Proof.
  intros Hnotes Hbank.
  cbv beta iota zeta delta [update_leds trace bind gets].
  rewrite Hnotes, Hbank.
  destruct (g_key_fourbanks_mode cfg); reflexivity.
Qed.

Lemma update_leds_keeps_state cfg pf inp (s : state) :
  exec (update_leds cfg pf inp) s = s.
Proof.
  cbv beta iota zeta delta [update_leds exec bind gets fst snd].
  destruct (g_key_fourbanks_mode cfg); reflexivity.
Qed.

Lemma update_leds_only_leds cfg pf inp (s : state) :
  led_actions (trace (update_leds cfg pf inp) s)
  = trace (update_leds cfg pf inp) s.
Proof.
  cbv beta iota zeta delta [update_leds trace bind gets fst snd].
  destruct (g_key_fourbanks_mode cfg); reflexivity.
Qed.

(** Output without LED calls. *)
Lemma led_free {A} (m : M A) :
  emits not_led m -> forall s, led_actions (trace m s) = [].
Proof.
  intros Hm s. specialize (Hm s). unfold led_actions.
  induction (trace m s) as [| a t IH]; [reflexivity |].
  inversion Hm as [| a' t' Ha Ht]; subst. simpl.
  destruct a; simpl in Ha; try contradiction; now apply IH.
Qed.

(** The LED calls of a configured run are those of the LED update, which
    sees the note state and the selected bank of the end of the run. *)
Lemma task_led_actions cfg pf inp (s : state) :
  USB_Configured inp = true ->
  led_actions (trace (Midifighter_Task cfg pf inp) s)
  = trace (update_leds cfg pf inp) (exec (Midifighter_Task cfg pf inp) s).
Proof.
  intros Husb.
  destruct (task_around_groundfx cfg pf inp s Husb) as [Htrace Hexec].
  set (s1 := exec (receive_loop cfg (rx_packets inp)) s) in *.
  destruct (before_groundfx_split cfg pf inp s1) as [Htrace2 Hexec2].
  set (sl := exec (before_leds cfg pf inp) s1) in *.
  rewrite Htrace, Htrace2. unfold led_actions. rewrite !filter_app.
  fold (led_actions (trace (receive_loop cfg (rx_packets inp)) s)).
  fold (led_actions (trace (before_leds cfg pf inp) s1)).
  fold (led_actions (trace (update_leds cfg pf inp) sl)).
  fold (led_actions (trace update_groundfx (exec (before_groundfx cfg pf inp) s1))).
  rewrite (led_free (receive_loop cfg (rx_packets inp)))
    by (apply receive_loop_emits; simpl; trivial).
  rewrite (led_free (before_leds cfg pf inp))
    by (unfold before_leds; phase).
  rewrite (led_free update_groundfx) by phase.
  rewrite update_leds_only_leds. cbn [app filter]. rewrite app_nil_r.
  apply update_leds_reads.
  - rewrite Hexec, Hexec2, update_leds_keeps_state.
    assert (H : preserves g_midi_note_state update_groundfx)
      by (unfold update_groundfx; frame).
    now rewrite <- (H sl).
  - rewrite Hexec, Hexec2, update_leds_keeps_state.
    assert (H : preserves g_key_bank_selected update_groundfx)
      by (unfold update_groundfx; frame).
    now rewrite <- (H sl).
Qed.

(** X14.  In a configured run in Fourbanks Off mode the LED drivers are
    called exactly twice, the expansion LEDs first, and both values show the
    note state as it is at the end of the run (inbound notes of this run
    included): LED [k] of the 16 keys is lit exactly when a note of the 16
    notes from the base note that maps to key [k] has a nonzero velocity,
    or keypress lighting is on and key [k] is held; expansion LED [i] is lit
    exactly when digital note [4 + i] has a nonzero velocity, or expansion
    keypress lighting is on and expansion key [i] is held. *)
Theorem leds_in_fourbanks_off cfg pf inp (s : state) :
  USB_Configured inp = true ->
  g_key_fourbanks_mode cfg = FOURBANKS_OFF ->
  (forall note, In note (range (u8 (MIDI_BASE_NOTE pf)) 16) ->
                0 <= midi_note_to_key pf note < 16) ->
  let ledger := g_midi_note_state (exec (Midifighter_Task cfg pf inp) s) in
  exists key_leds leds,
    led_actions (trace (Midifighter_Task cfg pf inp) s)
    = [exp_set_key_led key_leds; led_set_state leds] /\
    (forall k, 0 <= k < 16 ->
       Z.testbit leds k
       = note_lights_key ledger (midi_note_to_key pf)
                         (u8 (MIDI_BASE_NOTE pf)) 16 k
         || (g_led_keypress_enable cfg && Z.testbit (g_key_state inp) k)) /\
    (forall i, 0 <= i < 4 ->
       Z.testbit key_leds i
       = (0 <? ledger (MIDI_DIGITAL_NOTE + i))
         || (g_exp_led_keypress_enable cfg
             && Z.testbit (g_exp_key_state inp) i)).
Proof.
  intros Husb Hmode Hkey ledger.
  rewrite task_led_actions by assumption. fold ledger.
  cbv beta iota zeta delta [update_leds trace bind gets emit fst snd].
  rewrite Hmode. cbn [app snd]. fold ledger.
  eexists. eexists. split; [reflexivity |]. split.
  - intros k Hk. destruct (g_led_keypress_enable cfg); cbn [andb].
    + rewrite testbit_u16, Z.lor_spec, led_scan_testbit by (auto; lia).
      now rewrite Z.testbit_0_l.
    + rewrite led_scan_testbit by (auto; lia).
      now rewrite Z.testbit_0_l, orb_false_r.
  - intros i Hi. destruct (g_exp_led_keypress_enable cfg); cbn [andb].
    + rewrite testbit_u8, Z.lor_spec, digital_key_leds_testbit by lia.
      reflexivity.
    + rewrite digital_key_leds_testbit by lia. now rewrite orb_false_r.
Qed.

Lemma testbit_fff0 (k : Z) : 0 <= k < 16 -> Z.testbit 0xfff0 k = (4 <=? k).
Proof.
  intros Hk.
  assert (Hc : k = 0 \/ k = 1 \/ k = 2 \/ k = 3 \/ k = 4 \/ k = 5 \/ k = 6 \/
               k = 7 \/ k = 8 \/ k = 9 \/ k = 10 \/ k = 11 \/ k = 12 \/
               k = 13 \/ k = 14 \/ k = 15) by lia.
  repeat (destruct Hc as [-> | Hc]; [reflexivity |]). now subst.
Qed.

(** X15.  In a configured run in a banked mode, from a selected bank in
    0..3, the LED drivers are called exactly twice and show the bank and
    the note state of the end of the run.  Internal mode: key LED [k] is
    lit exactly when [k] is the selected bank, or a note of the 12-note
    slice of the selected bank that maps to key [k] has a nonzero velocity,
    or keypress lighting is on and [k] is one of the lower 12 keys (4..15)
    and is held; the expansion LEDs show the four digital notes.  External
    mode: the expansion LEDs show only the selected bank, and key LED [k]
    is lit exactly when a note of the 16-note slice of the selected bank
    maps to it with a nonzero velocity, or keypress lighting is on and key
    [k] is held. *)
Theorem leds_in_banked_modes cfg pf inp (s : state) :
  USB_Configured inp = true ->
  0 <= g_key_bank_selected s < 4 ->
  let ledger := g_midi_note_state (exec (Midifighter_Task cfg pf inp) s) in
  let selected := g_key_bank_selected (exec (Midifighter_Task cfg pf inp) s) in
  (g_key_fourbanks_mode cfg = FOURBANKS_INTERNAL ->
   (forall note,
      In note (range (u8 (MIDI_BASE_NOTE pf + selected * 12)) 12) ->
      0 <= midi_fourbanks_note_to_key pf FOURBANKS_INTERNAL selected note
        < 16) ->
   exists key_leds leds,
     led_actions (trace (Midifighter_Task cfg pf inp) s)
     = [exp_set_key_led key_leds; led_set_state leds] /\
     (forall k, 0 <= k < 16 ->
        Z.testbit leds k
        = (k =? selected)
          || note_lights_key ledger
               (midi_fourbanks_note_to_key pf FOURBANKS_INTERNAL selected)
               (u8 (MIDI_BASE_NOTE pf + selected * 12)) 12 k
          || (g_led_keypress_enable cfg && (4 <=? k)
              && Z.testbit (g_key_state inp) k)) /\
     (forall i, 0 <= i < 4 ->
        Z.testbit key_leds i = (0 <? ledger (MIDI_DIGITAL_NOTE + i)))) /\
  (g_key_fourbanks_mode cfg = FOURBANKS_EXTERNAL ->
   (forall note,
      In note (range (u8 (MIDI_BASE_NOTE pf + selected * 16)) 16) ->
      0 <= midi_fourbanks_note_to_key pf FOURBANKS_EXTERNAL selected note
        < 16) ->
   exists leds,
     led_actions (trace (Midifighter_Task cfg pf inp) s)
     = [exp_set_key_led (2 ^ selected); led_set_state leds] /\
     (forall k, 0 <= k < 16 ->
        Z.testbit leds k
        = note_lights_key ledger
            (midi_fourbanks_note_to_key pf FOURBANKS_EXTERNAL selected)
            (u8 (MIDI_BASE_NOTE pf + selected * 16)) 16 k
          || (g_led_keypress_enable cfg && Z.testbit (g_key_state inp) k))).
Proof.
  intros Husb Hsel ledger selected.
  assert (Hsel' : 0 <= selected < 4) by (now apply task_keeps_bank_range).
  split; intros Hmode Hkey.
  - rewrite task_led_actions by assumption. fold ledger.
    cbv beta iota zeta delta [update_leds trace bind gets emit fst snd].
    rewrite Hmode. cbn [app snd]. fold ledger. fold selected.
    eexists. eexists. split; [reflexivity |]. split.
    + intros k Hk. destruct (g_led_keypress_enable cfg); cbn [andb].
      * rewrite testbit_u16, Z.lor_spec, led_scan_testbit by (auto; lia).
        rewrite testbit_u16, testbit_one_shifted by lia.
        rewrite Z.land_spec, testbit_fff0 by lia.
        now rewrite (andb_comm (Z.testbit (g_key_state inp) k)).
      * rewrite led_scan_testbit by (auto; lia).
        rewrite testbit_u16, testbit_one_shifted by lia.
        now rewrite orb_false_r.
    + intros i Hi. now apply digital_key_leds_testbit.
  - rewrite task_led_actions by assumption. fold ledger.
    cbv beta iota zeta delta [update_leds trace bind gets emit fst snd].
    rewrite Hmode. cbn [app snd]. fold ledger. fold selected.
    assert (Hled : u8 (Z.shiftl 1 selected) = 2 ^ selected).
    { unfold u8. rewrite Z.shiftl_1_l. apply Z.mod_small.
      split; [apply Z.pow_nonneg; lia |].
      change 256 with (2 ^ 8). apply Z.pow_lt_mono_r; lia. }
    rewrite Hled.
    eexists. split; [reflexivity |].
    intros k Hk. destruct (g_led_keypress_enable cfg); cbn [andb].
    + rewrite testbit_u16, Z.lor_spec, led_scan_testbit by (auto; lia).
      now rewrite Z.testbit_0_l.
    + rewrite led_scan_testbit by (auto; lia).
      now rewrite Z.testbit_0_l, orb_false_r.
Qed.

(** A Note On for note 40 received in the run lights key 4 in the same run,
    and the held key 0 is lit by keypress lighting. *)
Lemma leds_in_fourbanks_off_witness :
  let inp := mkInput true [mkPacket 0x9 0x92 40 100] 0 0 0 (fun _ _ => 0)
                     0 0 0x0001 COMBO_NONE in
  exists key_leds leds,
    led_actions (trace (Midifighter_Task (demo_config DEVICE_DEFAULT
                                                      FOURBANKS_OFF)
                                         (demo_platform false) inp) power_on)
    = [exp_set_key_led key_leds; led_set_state leds] /\
    Z.testbit leds 4 = true /\ Z.testbit leds 0 = true /\
    Z.testbit leds 1 = false.
Proof.
  intros inp.
  destruct (leds_in_fourbanks_off (demo_config DEVICE_DEFAULT FOURBANKS_OFF)
              (demo_platform false) inp power_on)
    as (key_leds & leds & Hcalls & Hbits & _);
    [ reflexivity | reflexivity
    | intros note Hin; apply in_range in Hin;
      change (u8 (MIDI_BASE_NOTE (demo_platform false))) with 36 in Hin;
      simpl in *; lia | ].
  exists key_leds, leds. split; [exact Hcalls |].
  rewrite (Hbits 4), (Hbits 0), (Hbits 1) by lia.
  repeat split.
Defined.

(** Expansion key 2 goes down in Fourbanks External mode: the expansion
    LEDs show bank 2. *)
Lemma leds_in_banked_modes_witness :
  let inp := mkInput true [] 4 0 4 (fun _ _ => 0) 0 0 0 COMBO_NONE in
  exists leds,
    led_actions (trace (Midifighter_Task (demo_config DEVICE_DEFAULT
                                                      FOURBANKS_EXTERNAL)
                                         (demo_platform false) inp) power_on)
    = [exp_set_key_led 4; led_set_state leds].
Proof.
  intros inp.
  assert (Hsel : g_key_bank_selected
                   (exec (Midifighter_Task
                            (demo_config DEVICE_DEFAULT FOURBANKS_EXTERNAL)
                            (demo_platform false) inp) power_on) = 2)
    by reflexivity.
  destruct (leds_in_banked_modes (demo_config DEVICE_DEFAULT FOURBANKS_EXTERNAL)
              (demo_platform false) inp power_on)
    as (_ & Hext); [reflexivity | simpl; lia |].
  rewrite Hsel in Hext.
  destruct Hext as (leds & Hcalls & _).
  - reflexivity.
  - intros note Hin. apply in_range in Hin.
    change (u8 (MIDI_BASE_NOTE (demo_platform false) + 2 * 16)) with 68 in Hin.
    simpl in *. lia.
  - exists leds. exact Hcalls.
Defined.

Lemma task_keeps_analog_prev_range_witness :
  0 <= g_exp_analog_prev
         (exec (Midifighter_Task (demo_config TRAKTOR FOURBANKS_OFF)
                                 (demo_platform true) (slider0_input 0))
               power_on) 0 <= 1024.
Proof.
  apply task_keeps_analog_prev_range.
  - unfold NUM_ANALOG. lia.
  - intros samples. simpl. lia.
  - simpl. lia.
Defined.

(** ** The digital expansion pins *)

Lemma expansion_digital_run cfg inp (s : state) :
  expansion_digital cfg inp s =
    (tt, s,
     match g_key_fourbanks_mode cfg with
     | FOURBANKS_EXTERNAL => []
     | _ => flat_map (pin_actions inp) (range 0 4)
     end).
Proof.
  unfold expansion_digital.
  assert (Hloop :
    for_each (range 0 4)
      (fun i =>
         let bit := u8 (Z.shiftl 1 i) in
         when (bit_and (g_exp_key_down inp) bit)
              (emit (midi_stream_note (u8 (MIDI_DIGITAL_NOTE + i)) true)) ;;
         when (bit_and (g_exp_key_up inp) bit)
              (emit (midi_stream_note (u8 (MIDI_DIGITAL_NOTE + i)) false))) s
    = (tt, s, flat_map (pin_actions inp) (range 0 4))).
  { apply for_each_run. intros i Hi. apply in_range in Hi. cbv zeta.
    assert (Hbit : u8 (Z.shiftl 1 i) = Z.shiftl 1 i).
    { unfold u8. rewrite Z.shiftl_1_l. apply Z.mod_small.
      split; [apply Z.pow_nonneg; lia |].
      change 256 with (2 ^ 8). apply Z.pow_lt_mono_r; simpl in Hi; lia. }
    assert (Hnote : u8 (MIDI_DIGITAL_NOTE + i) = MIDI_DIGITAL_NOTE + i).
    { unfold u8, MIDI_DIGITAL_NOTE. apply Z.mod_small. simpl in Hi. lia. }
    rewrite Hbit, Hnote, !bit_and_testbit by lia.
    unfold pin_actions. run_task.
    destruct (Z.testbit (g_exp_key_down inp) i);
      destruct (Z.testbit (g_exp_key_up inp) i); reflexivity. }
  destruct (g_key_fourbanks_mode cfg); simpl; try exact Hloop. reflexivity.
Qed.

(** X17.  In a configured run the events of the digital expansion pins come
    first in the MIDI output, right after the calls of the receive loop:
    outside Fourbanks External mode, for the pins 0..3 in order, a Note-On
    for note [4 + i] on a down edge and then a Note-Off on an up edge of
    pin [i]; in Fourbanks External mode the pins generate no notes of their
    own. *)
Theorem expansion_pin_events cfg pf inp (s : state) :
  USB_Configured inp = true ->
  exists rest,
    trace (Midifighter_Task cfg pf inp) s
    = trace (receive_loop cfg (rx_packets inp)) s
      ++ match g_key_fourbanks_mode cfg with
         | FOURBANKS_EXTERNAL => []
         | _ => flat_map (pin_actions inp) [0; 1; 2; 3]
         end
      ++ rest.
Proof.
  intros Husb. rewrite configured_task by assumption.
  do 2 rewrite trace_bind.
  unfold trace at 2. rewrite expansion_digital_run. cbn [snd].
  eexists. reflexivity.
Qed.

Lemma expansion_pin_events_witness :
  let inp := mkInput true [mkPacket 0xF 0xF8 0 0] 5 2 5 (fun _ _ => 0)
                     0 0 0 COMBO_NONE in
  exists rest,
    trace (Midifighter_Task (demo_config DEVICE_DEFAULT FOURBANKS_OFF)
                            (demo_platform false) inp) power_on
    = [midi_stream_note 4 true; midi_stream_note 5 false;
       midi_stream_note 6 true] ++ rest.
Proof.
  intros inp.
  exact (expansion_pin_events (demo_config DEVICE_DEFAULT FOURBANKS_OFF)
           (demo_platform false) inp power_on eq_refl).
Defined.

(** ** The analog channels outside Traktor mode *)

(** X18.  Outside Traktor mode the analog channels emit nothing but their
    first CC: the analog phase makes only CC calls (no note event, no store
    into the note state), and every CC event of a run is on one of the
    controllers 16, 18, 20 and 22, never on a second controller 17, 19, 21
    or 23. *)
Theorem analog_first_cc_only_outside_traktor cfg pf inp (s : state) :
  g_device_mode cfg <> TRAKTOR ->
  Forall is_cc (trace (expansion_analog cfg pf inp) s) /\
  Forall first_cc_only (trace (Midifighter_Task cfg pf inp) s).
Proof.
  intros Hmode.
  assert (Htraktor : is_traktor cfg = false).
  { unfold is_traktor. destruct (g_device_mode cfg); try reflexivity.
    contradiction. }
  split.
  - assert (Hall : emits is_cc (expansion_analog cfg pf inp)).
    { unfold expansion_analog, analog_channel, analog_cc, analog_notes.
      rewrite Htraktor. command_steps; try discriminate; simpl; trivial. }
    apply Hall.
  - assert (Hall : emits first_cc_only (Midifighter_Task cfg pf inp)).
    { unfold Midifighter_Task.
      destruct (negb (USB_Configured inp)); [apply emits_modify |].
      apply emits_bind; [apply receive_loop_emits; simpl; trivial | intros _].
      apply emits_bind; [phase | intros _].
      apply emits_bind; [| intros _; phase].
      unfold expansion_analog, analog_channel, analog_cc, analog_notes.
      rewrite Htraktor.
      command_steps; try discriminate; unfold first_cc_only; trivial.
      match goal with
      | H : In ?i (range 0 (Z.to_nat NUM_ANALOG)) |- _ =>
          apply in_range in H; exists i; split;
          [ simpl in H; lia
          | unfold u8, MIDI_ANALOG_CC; apply Z.mod_small; simpl in H; lia ]
      end. }
    apply Hall.
Qed.

Lemma analog_first_cc_only_outside_traktor_witness :
  let cfg := demo_config DEVICE_DEFAULT FOURBANKS_OFF in
  trace (expansion_analog cfg (demo_platform false) (slider0_input 800))
        power_on
  = [midi_stream_cc 16 101] /\
  Forall first_cc_only
         (trace (Midifighter_Task cfg (demo_platform false) (slider0_input 800))
                power_on).
Proof.
  intros cfg. split; [reflexivity |].
  apply (analog_first_cc_only_outside_traktor cfg (demo_platform false)
           (slider0_input 800) power_on).
  discriminate.
Defined.

(** ** The second CC of a channel moving alone *)
















